(** * xbps.py: package metadata, repository index and the stage check

    A shallow embedding of [xbps/util/package.py] and
    [xbps/util/repodata.py].  Python objects are modelled as follows.

    - A [Package] instance is its attribute dictionary: [setattr] writes
      into it and attribute access reads it, falling back on the class
      attributes the dataclass decorator leaves behind.
    - Ordered dictionaries whose iteration order is observable
      ([RepoIndex], [old_shlibs], [used_shlibs], keyword arguments) are
      association lists in insertion order.
    - Exceptions are values of [exn]; code that may raise lives in the
      [result] monad.
    - Of the collaborators outside the repository, [tarfile] is a list of
      named members; plistlib, the zstd codec, urlopen and the file
      system are parameters of a section. *)

From stdpp Require Import gmap strings list.
From Stdlib Require Import ZArith Ascii.

(** ** Exceptions and results *)

Inductive exn : Type :=
| AttributeError
| TypeError
| ValueError
| KeyError (key : string)
| FileNotFoundError (arg : string)
| ExpatError
| OSError
| URLError.

Global Instance exn_eq_dec : EqDecision exn.
Proof. solve_decision. Defined.

Inductive result (A : Type) : Type :=
| Ok (a : A)
| Raise (e : exn).
Arguments Ok {A} a.
Arguments Raise {A} e.

Global Instance result_ret : MRet result := fun A a => Ok a.
Global Instance result_bind : MBind result := fun A B f m =>
  match m with
  | Ok a => f a
  | Raise e => Raise e
  end.

(** [for x in xs: body] where the body may raise and threads a state. *)
Fixpoint for_each {A S : Type} (xs : list A) (body : A -> S -> result S)
    (s : S) : result S :=
  match xs with
  | [] => Ok s
  | x :: rest => s' ← body x s; for_each rest body s'
  end.

(** ** The string methods the sources call

    The separators used by the sources are all single characters, so the
    separator is an [ascii]. *)

Module Str.

(** Iterating a [str] yields its characters, each a [str] of length 1. *)
Fixpoint chars (s : string) : list string :=
  match s with
  | EmptyString => []
  | String c rest => String c EmptyString :: chars rest
  end.

(** [c in s] *)
Fixpoint contains (c : ascii) (s : string) : bool :=
  match s with
  | EmptyString => false
  | String d rest => if Ascii.eqb d c then true else contains c rest
  end.

(** [s.replace(a, b)] *)
Fixpoint replace (a b : ascii) (s : string) : string :=
  match s with
  | EmptyString => EmptyString
  | String d rest =>
      String (if Ascii.eqb d a then b else d) (replace a b rest)
  end.

(** Split at the first occurrence of [sep], when there is one. *)
Fixpoint find_split (sep : ascii) (s : string) : option (string * string) :=
  match s with
  | EmptyString => None
  | String d rest =>
      if Ascii.eqb d sep then Some (EmptyString, rest)
      else match find_split sep rest with
           | Some (h, t) => Some (String d h, t)
           | None => None
           end
  end.

(** Split at the last occurrence of [sep], when there is one. *)
Fixpoint rfind_split (sep : ascii) (s : string) : option (string * string) :=
  match s with
  | EmptyString => None
  | String d rest =>
      match rfind_split sep rest with
      | Some (h, t) => Some (String d h, t)
      | None => if Ascii.eqb d sep then Some (EmptyString, rest) else None
      end
  end.

(** [s.partition(sep)]: [(s, "", "")] when [sep] does not occur. *)
Definition partition (sep : ascii) (s : string) : string * string * string :=
  match find_split sep s with
  | Some (h, t) => (h, String sep EmptyString, t)
  | None => (s, EmptyString, EmptyString)
  end.

(** [s.rpartition(sep)]: [("", "", s)] when [sep] does not occur. *)
Definition rpartition (sep : ascii) (s : string) : string * string * string :=
  match rfind_split sep s with
  | Some (h, t) => (h, String sep EmptyString, t)
  | None => (EmptyString, EmptyString, s)
  end.

(** [s.split(sep)] with an explicit separator: empty pieces are kept. *)
Fixpoint split (sep : ascii) (s : string) : list string :=
  match s with
  | EmptyString => [EmptyString]
  | String d rest =>
      if Ascii.eqb d sep then EmptyString :: split sep rest
      else match split sep rest with
           | piece :: pieces => String d piece :: pieces
           | [] => [String d EmptyString]
           end
  end.

(** [s.startswith(p)] *)
Fixpoint startswith (p s : string) : bool :=
  match p, s with
  | EmptyString, _ => true
  | String a p', String b s' => if Ascii.eqb a b then startswith p' s' else false
  | String _ _, EmptyString => false
  end.

(** [sep.join(pieces)] *)
Fixpoint join (sep : ascii) (pieces : list string) : string :=
  match pieces with
  | [] => EmptyString
  | [piece] => piece
  | piece :: rest => piece +:+ String sep (join sep rest)
  end.

End Str.

(** ** Values

    What the property-list decoder hands over for package metadata
    (strings, booleans, integers, arrays of strings, nested dictionaries),
    [None], and the list of [(name, Path)] tuples that [Package.__init__]
    builds.  A [Path] is kept as the string it was built from: pathlib's
    own normalisation is not part of the repository. *)

Record Path : Type := MkPath { path_arg : string }.

#[warnings="-register-all"]
Inductive value : Type :=
| VNone
| VBool (b : bool)
| VInt (n : Z)
| VStr (s : string)
| VStrs (l : list string)
| VAlts (l : list (string * Path))
| VDict (d : list (string * value)).

(** ** Ordered dictionaries with string keys *)

Module Dict.

Definition t (V : Type) : Type := list (string * V).

Definition keys {V} (d : t V) : list string := d.*1.

(** [d.get(k)] *)
Fixpoint get {V} (d : t V) (k : string) : option V :=
  match d with
  | [] => None
  | (k', v) :: rest => if decide (k' = k) then Some v else get rest k
  end.

(** [k in d] *)
Definition mem {V} (d : t V) (k : string) : bool :=
  match get d k with Some _ => true | None => false end.

(** [d[k] = v]: an existing key keeps its place, a new one goes last. *)
Fixpoint set {V} (d : t V) (k : string) (v : V) : t V :=
  match d with
  | [] => [(k, v)]
  | (k', v') :: rest =>
      if decide (k' = k) then (k', v) :: rest else (k', v') :: set rest k v
  end.

(** [del d[k]] *)
Fixpoint del {V} (d : t V) (k : string) : t V :=
  match d with
  | [] => []
  | (k', v') :: rest =>
      if decide (k' = k) then del rest k else (k', v') :: del rest k
  end.

(** [d[k].append(x)] on a [defaultdict(list)] *)
Fixpoint append {V} (d : t (list V)) (k : string) (x : V) : t (list V) :=
  match d with
  | [] => [(k, [x])]
  | (k', xs) :: rest =>
      if decide (k' = k) then (k', xs ++ [x]) :: rest
      else (k', xs) :: append rest k x
  end.

End Dict.

(** ** package.py *)

Module Package.

(** How the dataclass declares a field.  The decorator keeps a plain
    default ([= None]) as a class attribute and removes the class
    attribute of a field declared with [field(default_factory=...)] or
    with no default; since the class is declared with [init=False], no
    generated [__init__] ever calls a factory. *)
Inductive default : Type := NoDefault | DefaultNone | Factory.

Definition fields : list (string * default) :=
  [ ("pkgver", NoDefault); ("architecture", NoDefault);
    ("alternatives", Factory); ("automatic_install", DefaultNone);
    ("build_date", DefaultNone); ("build_options", Factory);
    ("changelog", DefaultNone); ("conf_files", Factory);
    ("conflicts", Factory); ("filename_sha256", DefaultNone);
    ("filename_size", DefaultNone); ("hold", DefaultNone);
    ("homepage", DefaultNone); ("install_date", DefaultNone);
    ("install_msg", DefaultNone); ("install_script", DefaultNone);
    ("installed_size", DefaultNone); ("license", DefaultNone);
    ("long_desc", DefaultNone); ("maintainer", DefaultNone);
    ("metafile_sha256", DefaultNone); ("packaged_with", DefaultNone);
    ("preserve", DefaultNone); ("provides", Factory);
    ("remove_msg", DefaultNone); ("remove_script", DefaultNone);
    ("replaces", Factory); ("repolock", DefaultNone);
    ("repository", DefaultNone); ("reverts", Factory);
    ("run_depends", Factory); ("shlib_provides", Factory);
    ("shlib_requires", Factory); ("short_desc", DefaultNone);
    ("source_revisions", DefaultNone); ("sourcepkg", DefaultNone);
    ("tags", Factory) ].

(** [names = set(f.name for f in fields(self))] *)
Definition names : gset string := list_to_set fields.*1.

(** An instance is its attribute dictionary. *)
Abbreviation t := (gmap string value).

Definition class_attr (k : string) : option value :=
  match Dict.get fields k with
  | Some DefaultNone => Some VNone
  | _ => None
  end.

(** [self.k] for a field [k]. *)
Definition getattr (self : t) (k : string) : result value :=
  match self !! k with
  | Some v => Ok v
  | None =>
      match class_attr k with
      | Some v => Ok v
      | None => Raise AttributeError
      end
  end.

(** The loop over a [str] value of [alternatives]: [for itm in v]
    runs over the characters of [v]. *)
Definition alternatives_of_str (v : string) : list (string * Path) :=
  map (fun itm : string =>
         let parts := Str.partition ":" itm in
         (parts.1.1, MkPath parts.2))
      (Str.chars v).

(** One turn of [for k, v in kwargs.items()]. *)
Definition init_item (self : t) (kv : string * value) : t :=
  let k := if Str.contains "-" kv.1 then Str.replace "-" "_" kv.1 else kv.1 in
  if decide (k ∈ names) then
    let v :=
      if decide (k = "alternatives") then
        match kv.2 with
        | VStr s => VAlts (alternatives_of_str s)
        | v => v
        end
      else if decide (k = "build_options") then
        match kv.2 with
        | VStr s => VStrs (Str.split " " s)
        | v => v
        end
      else kv.2 in
    <[k := v]> self
  else self.

(** The body of [__init__(self, **kwargs)], from an instance with no
    attribute set. *)
Definition __init__ (kwargs : Dict.t value) : t :=
  fold_left init_item kwargs ∅.

(** Calling the class with keyword arguments.  The receiver is bound to the
    parameter [self], so a keyword of that name is refused by the call
    with [TypeError] before the body runs. *)
Definition new (kwargs : Dict.t value) : result t :=
  if decide ("self" ∈ Dict.keys kwargs) then Raise TypeError
  else Ok (__init__ kwargs).

(** [v.rpartition("-")]: only a [str] has the method. *)
Definition rpartition_hyphen (v : value) : result (string * string * string) :=
  match v with
  | VStr s => Ok (Str.rpartition "-" s)
  | _ => Raise AttributeError
  end.

Definition pkgname (self : t) : result string :=
  v ← getattr self "pkgver";
  parts ← rpartition_hyphen v;
  mret parts.1.1.

Definition version (self : t) : result string :=
  v ← getattr self "pkgver";
  parts ← rpartition_hyphen v;
  mret parts.2.

(** [for shlib in v] where the items are used as [str] keys.  A [str]
    yields its characters and a dictionary its keys; [None], booleans
    and integers are not iterable.  A non-empty list of [(name, Path)]
    tuples would be iterated and its tuples used as keys; they are no
    strings, [__init__] stores such a list under [alternatives] only, and
    the embedding of the stage check does not cover it: it stops there,
    and no statement below is about that case. *)
Definition iter_strs (v : value) : result (list string) :=
  match v with
  | VStrs l => Ok l
  | VStr s => Ok (Str.chars s)
  | VDict d => Ok (Dict.keys d)
  | VAlts [] => Ok []
  | VAlts (_ :: _) => Raise TypeError
  | VNone | VBool _ | VInt _ => Raise TypeError
  end.

Definition shlib_provides (self : t) : result (list string) :=
  v ← getattr self "shlib_provides"; iter_strs v.

Definition shlib_requires (self : t) : result (list string) :=
  v ← getattr self "shlib_requires"; iter_strs v.

(** The attribute name a keyword stands for: hyphens become
    underscores. *)
Definition field_of_key (k : string) : string :=
  if Str.contains "-" k then Str.replace "-" "_" k else k.

Section Repr.

(** How the f-string formats a value that is no [str]; the text of a
    [str] is taken as it is. *)
Variable format_other : value -> string.

Definition format_value (v : value) : string :=
  match v with
  | VStr s => s
  | _ => format_other v
  end.

Definition __repr__ (self : t) : result string :=
  name ← pkgname self;
  ver ← version self;
  arch ← getattr self "architecture";
  mret ("Package(pkgname='" +:+ name +:+ "', version='" +:+ ver
        +:+ "', arch='" +:+ format_value arch +:+ "')").

End Repr.

End Package.

(** ** repodata.py *)

Abbreviation RepoIndex := (Dict.t Package.t).

Inductive SignatureType : Type := RSA.

Record RepoMeta : Type := {
  public_key : string;
  public_key_size : Z;
  signature_by : string;
  signature_type : SignatureType
}.

Record StageDiff : Type := {
  shlib : string;
  provider : option string;
  required_by : list string
}.

Record Repodata : Type := {
  index : RepoIndex;
  stage : RepoIndex;
  meta : option RepoMeta
}.

(** *** The stage check *)

(** [for shlib in libs: old_shlibs[shlib] = pkgname] *)
Definition record_old (pkgname : string) (libs : list string)
    (old_shlibs : Dict.t string) : Dict.t string :=
  fold_left (fun d shlib => Dict.set d shlib pkgname) libs old_shlibs.

(** find all old shlib-provides *)
Definition old_shlibs_of (self : Repodata) : result (Dict.t string) :=
  for_each (Dict.keys (stage self))
    (fun pkgname old_shlibs =>
       match Dict.get (index self) pkgname with
       | Some pkg =>
           libs ← Package.shlib_provides pkg;
           mret (record_old pkgname libs old_shlibs)
       | None => Ok old_shlibs
       end)
    [].

(** [for shlib in libs: if shlib not in old_shlibs: continue;
     used_shlibs[shlib].append(pkgname)] *)
Definition record_used (old_shlibs : Dict.t string) (pkgname : string)
    (libs : list string) (used_shlibs : Dict.t (list string))
    : Dict.t (list string) :=
  fold_left
    (fun d shlib =>
       if Dict.mem old_shlibs shlib then Dict.append d shlib pkgname else d)
    libs used_shlibs.

(** throw away all unused shlibs *)
Definition used_shlibs_of (self : Repodata) (old_shlibs : Dict.t string)
    : result (Dict.t (list string)) :=
  for_each (Dict.keys (index self))
    (fun pkgname used_shlibs =>
       match
         match Dict.get (stage self) pkgname with
         | Some pkg => Some pkg
         | None => Dict.get (index self) pkgname
         end
       with
       | Some pkg =>
           libs ← Package.shlib_requires pkg;
           mret (record_used old_shlibs pkgname libs used_shlibs)
       | None => Ok used_shlibs
       end)
    [].

(** [for shlib in libs: if shlib in used_shlibs: del used_shlibs[shlib]] *)
Definition purge (libs : list string) (used_shlibs : Dict.t (list string))
    : Dict.t (list string) :=
  fold_left (fun d shlib => if Dict.mem d shlib then Dict.del d shlib else d)
    libs used_shlibs.

(** purge all packages fulfilled by the index and not in the stage *)
Definition purge_index (self : Repodata) (used_shlibs : Dict.t (list string))
    : result (Dict.t (list string)) :=
  for_each (index self)
    (fun item used_shlibs =>
       if Dict.mem (stage self) item.1 then Ok used_shlibs
       else libs ← Package.shlib_provides item.2; mret (purge libs used_shlibs))
    used_shlibs.

(** purge all packages fulfilled by the stage *)
Definition purge_stage (self : Repodata) (used_shlibs : Dict.t (list string))
    : result (Dict.t (list string)) :=
  for_each (stage self)
    (fun item used_shlibs =>
       libs ← Package.shlib_provides item.2; mret (purge libs used_shlibs))
    used_shlibs.

(** collect inconsistent shlibs *)
Definition collect (old_shlibs : Dict.t string) (used_shlibs : Dict.t (list string))
    : list StageDiff :=
  map (fun item =>
         {| shlib := item.1;
            provider := Dict.get old_shlibs item.1;
            required_by := item.2 |})
      used_shlibs.

Definition compute_stage (self : Repodata) : result (list StageDiff) :=
  if decide (length (stage self) = 0) then Ok []
  else
    old_shlibs ← old_shlibs_of self;
    used_shlibs ← used_shlibs_of self old_shlibs;
    used_shlibs ← purge_index self used_shlibs;
    used_shlibs ← purge_stage self used_shlibs;
    mret (collect old_shlibs used_shlibs).

(** *** Loading *)

Abbreviation bytes := (list Byte.byte).

(** The archive as [tarfile] presents it: named members, each a regular
    file with its content or an entry that is no file (a directory). *)
Inductive TarMember : Type :=
| RegularFile (content : bytes)
| Directory.

Definition TarFile : Type := list (string * TarMember).

(** [tar.extractfile(fname)]: [KeyError] when no member has the name,
    [None] when the member is no file.  When a name occurs several times
    the last member wins. *)
Definition extractfile (tar : TarFile) (fname : string) : result (option bytes) :=
  match Dict.get (rev tar) fname with
  | None => Raise (KeyError fname)
  | Some (RegularFile content) => Ok (Some content)
  | Some Directory => Ok None
  end.

Definition _extract_index (tar : TarFile) (fname : string) : result bytes :=
  match extractfile tar fname with
  | Raise (KeyError _) => Raise (FileNotFoundError fname)
  | Raise e => Raise e
  | Ok None => Raise (FileNotFoundError "not a file")
  | Ok (Some f) => Ok f
  end.

(** What [from_repodata] accepts: a [Path] or a [str]. *)
Inductive PathOrStr : Type :=
| IsPath (p : Path)
| IsStr (s : string).

(** What [ZstdFile] is opened on: a [Path] or a binary stream. *)
Inductive RepodataFile : Type :=
| OnPath (p : Path)
| OnBuffer (b : bytes).

Section Loading.

(** [plistlib.load(f, fmt=plistlib.FMT_XML).items()] *)
Variable plist_load : bytes -> result (Dict.t (Dict.t value)).
(** [ZstdFile(rdf, mode="r")] followed by [tarfile.open(fileobj=fp)] *)
Variable open_archive : RepodataFile -> result TarFile.
(** [urlopen(url).read()] *)
Variable urlopen_read : string -> result bytes.

(** The body of the [try] in [_read_index]: the index built so far and
    the exception that stopped the loop, if any. *)
Fixpoint fill_index (items : Dict.t (Dict.t value)) (idx : RepoIndex)
    : RepoIndex * option exn :=
  match items with
  | [] => (idx, None)
  | (pkgname, pkg) :: rest =>
      match Package.new pkg with
      | Ok p => fill_index rest (Dict.set idx pkgname p)
      | Raise e => (idx, Some e)
      end
  end.

Definition _read_index (f : bytes) : result RepoIndex :=
  let tried :=
    match plist_load f with
    | Ok items => fill_index items []
    | Raise e => ([], Some e)
    end in
  match tried.2 with
  | None => Ok tried.1
  | Some ExpatError => Ok tried.1
  | Some e => Raise e
  end.

Definition _read_repodata (rdf : RepodataFile)
    : result (RepoIndex * RepoIndex * option RepoMeta) :=
  tar ← open_archive rdf;
  f ← _extract_index tar "index.plist";
  index ← _read_index f;
  f ← _extract_index tar "stage.plist";
  stage ← _read_index f;
  mret (index, stage, None).

Definition from_local (path : Path) : result Repodata :=
  r ← _read_repodata (OnPath path);
  mret {| index := r.1.1; stage := r.1.2; meta := r.2 |}.

Definition from_remote (url : string) : result Repodata :=
  body ← urlopen_read url;
  r ← _read_repodata (OnBuffer body);
  mret {| index := r.1.1; stage := r.1.2; meta := r.2 |}.

Definition remote_prefixes : list string :=
  ["http://"; "https://"; "ftp://"; "socks5://"].

Definition from_repodata (url : PathOrStr) : result Repodata :=
  match url with
  | IsPath p => from_local p
  | IsStr s =>
      if existsb (fun prefix => Str.startswith prefix s) remote_prefixes
      then from_remote s
      else from_local (MkPath s)
  end.

End Loading.

(** ** The repositories of the scenarios

    A committed index with two packages, the first of which has a
    replacement in the stage. *)

Definition replaces_first (a b : string) (pa pb pa_new : Package.t)
    (m : option RepoMeta) : Repodata :=
  {| index := [(a, pa); (b, pb)]; stage := [(a, pa_new)]; meta := m |}.

Module Scenario.

Definition pkg (pkgver : string) (provides requires : list string) : Package.t :=
  Package.__init__
    [("pkgver", VStr pkgver); ("architecture", VStr "x86_64");
     ("shlib-provides", VStrs provides); ("shlib-requires", VStrs requires)].

(** [A] provides the library and [B] requires it. *)
Definition A : Package.t := pkg "A-1.0_1" ["libfoo.so.1"] [].
Definition B : Package.t := pkg "B-1.0_1" [] ["libfoo.so.1"].
(** A replacement for [A] without the library, and one that keeps it. *)
Definition A_dropped : Package.t := pkg "A-2.0_1" [] [].
Definition A_kept : Package.t := pkg "A-2.0_1" ["libfoo.so.1"] [].

(** A replacement for [A] built from its [pkgver] alone: the library
    lists are not set. *)
Definition A_bare : Package.t := Package.__init__ [("pkgver", VStr "A-2.0_1")].

Definition dropped : Repodata := replaces_first "A" "B" A B A_dropped None.
Definition kept : Repodata := replaces_first "A" "B" A B A_kept None.
Definition bare : Repodata := replaces_first "A" "B" A B A_bare None.

(** The packages built from the attributes the scenarios name, and no
    other: [A] from its provides, [B] from its requires, the replacement
    for [A] from its [pkgver] alone ([A_bare]) or from the provides it
    keeps. *)
Definition A_provides_only : Package.t :=
  Package.__init__
    [("pkgver", VStr "A-1.0_1"); ("shlib-provides", VStrs ["libfoo.so.1"])].
Definition B_requires_only : Package.t :=
  Package.__init__
    [("pkgver", VStr "B-1.0_1"); ("shlib-requires", VStrs ["libfoo.so.1"])].
Definition A_kept_provides_only : Package.t :=
  Package.__init__
    [("pkgver", VStr "A-2.0_1"); ("shlib-provides", VStrs ["libfoo.so.1"])].

Definition dropped_as_worded : Repodata :=
  replaces_first "A" "B" A_provides_only B_requires_only A_bare None.
Definition kept_as_worded : Repodata :=
  replaces_first "A" "B" A_provides_only B_requires_only A_kept_provides_only None.

(** [A] provides two libraries, [B] requires the first and [C] the
    second; the replacement for [A] provides neither. *)
Definition A_two : Package.t := pkg "A-1.0_1" ["libfoo.so.1"; "libbar.so.2"] [].
Definition C : Package.t := pkg "C-1.0_1" [] ["libbar.so.2"].
Definition two_reports : Repodata :=
  {| index := [("A", A_two); ("B", B); ("C", C)];
     stage := [("A", A_dropped)];
     meta := None |}.

End Scenario.

(** ** Collaborators for the examples *)

(** The decoder used by the witnesses: an empty stream is no XML
    document, [<] alone stands for a document with no package, and every
    other stream fails to be read. *)
Definition sample_plist_load (f : bytes) : result (Dict.t (Dict.t value)) :=
  match f with
  | [] => Raise ExpatError
  | [Byte.x3c] => Ok []
  | _ => Raise OSError
  end.

Definition sample_open_archive (rdf : RepodataFile) : result TarFile :=
  match rdf with
  | OnPath _ => Ok [("index.plist", RegularFile [Byte.x3c]);
                    ("stage.plist", RegularFile [])]
  | OnBuffer _ => Ok [("index.plist", RegularFile [Byte.x3c])]
  end.

Definition sample_urlopen_read (url : string) : result bytes := Ok [].

(** What [plistlib.load] with [fmt=FMT_XML] does on four streams: the
    empty stream and a document that stops short are no well-formed XML
    ([ExpatError]); a dictionary holding a value without a key is
    well-formed XML but no property list ([ValueError]); an empty
    dictionary decodes to the empty mapping.  No other stream is used. *)
Definition truncated_document : bytes :=
  String.list_byte_of_string "<plist><dict>".
Definition keyless_value_document : bytes :=
  String.list_byte_of_string "<plist><dict><string>x</string></dict></plist>".
Definition empty_dict_document : bytes :=
  String.list_byte_of_string "<plist><dict/></plist>".

Definition plistlib_on_samples (f : bytes) : result (Dict.t (Dict.t value)) :=
  let text := String.string_of_list_byte f in
  if String.eqb text "<plist><dict><string>x</string></dict></plist>"
  then Raise ValueError
  else if String.eqb text "<plist><dict/></plist>" then Ok []
  else Raise ExpatError.

(** [self.stage.get(pkgname, self.index.get(pkgname))]: the staged
    package when the name is staged, the committed one otherwise. *)
Definition effective (self : Repodata) (pkgname : string) : option Package.t :=
  match Dict.get (stage self) pkgname with
  | Some pkg => Some pkg
  | None => Dict.get (index self) pkgname
  end.

(** Some package that stays after a commit provides [lib]: a committed
    package whose name is not staged, or a staged package. *)
Definition still_provided (self : Repodata) (lib : string) : Prop :=
  (exists item libs,
      item ∈ index self /\ Dict.mem (stage self) item.1 = false /\
      Package.shlib_provides item.2 = Ok libs /\ lib ∈ libs) \/
  (exists item libs,
      item ∈ stage self /\
      Package.shlib_provides item.2 = Ok libs /\ lib ∈ libs).

(** The effective version of the committed name [pkgname] requires
    [lib]. *)
Definition requires_after (self : Repodata) (lib pkgname : string) : Prop :=
  pkgname ∈ Dict.keys (index self) /\
  exists pkg libs,
    effective self pkgname = Some pkg /\
    Package.shlib_requires pkg = Ok libs /\
    lib ∈ libs.

Definition is_ok {A : Type} (r : result A) : Prop := exists a, r = Ok a.

(** What [old_shlibs] records: a library maps to a package name of the
    stage whose committed package provides the library. *)
Definition old_provider (self : Repodata) (lib prov : string) : Prop :=
  prov ∈ Dict.keys (stage self) /\
  exists pkg libs,
    Dict.get (index self) prov = Some pkg /\
    Package.shlib_provides pkg = Ok libs /\
    lib ∈ libs.

(** What the purges keep of a dictionary: its keys stay distinct, and
    a key that is left has the value it had. *)
Definition kept_from (used used' : Dict.t (list string)) : Prop :=
  (NoDup (Dict.keys used) -> NoDup (Dict.keys used')) /\
  forall lib reqs, Dict.get used' lib = Some reqs -> Dict.get used lib = Some reqs.

(** The entries of [used_shlibs] after the recording loop. *)
Definition recorded (self : Repodata) (old_shlibs : Dict.t string)
    (used : Dict.t (list string)) : Prop :=
  NoDup (Dict.keys used) /\
  forall lib reqs, Dict.get used lib = Some reqs ->
    lib ∈ Dict.keys old_shlibs /\ reqs <> [] /\
    forall n, n ∈ reqs -> requires_after self lib n.

(** The attribute reads [compute_stage] performs when the stage is not
    empty. *)
Definition reads_ok (self : Repodata) : Prop :=
  (forall n, n ∈ Dict.keys (stage self) ->
     forall pkg, Dict.get (index self) n = Some pkg ->
       is_ok (Package.shlib_provides pkg)) /\
  (forall n, n ∈ Dict.keys (index self) ->
     forall pkg, effective self n = Some pkg ->
       is_ok (Package.shlib_requires pkg)) /\
  (forall item, item ∈ index self ->
     Dict.mem (stage self) item.1 = false ->
     is_ok (Package.shlib_provides item.2)) /\
  (forall item, item ∈ stage self -> is_ok (Package.shlib_provides item.2)).

(** One of these reads finds the attribute unset. *)
Definition reads_unset (self : Repodata) : Prop :=
  (exists n pkg,
      n ∈ Dict.keys (stage self) /\ Dict.get (index self) n = Some pkg /\
      Package.shlib_provides pkg = Raise AttributeError) \/
  (exists n pkg,
      n ∈ Dict.keys (index self) /\ effective self n = Some pkg /\
      Package.shlib_requires pkg = Raise AttributeError) \/
  (exists item,
      item ∈ index self /\ Dict.mem (stage self) item.1 = false /\
      Package.shlib_provides item.2 = Raise AttributeError) \/
  (exists item,
      item ∈ stage self /\
      Package.shlib_provides item.2 = Raise AttributeError).

(** * Properties *)

(** ** Strings *)

Section StrFacts.

Variable sep : ascii.

Lemma rfind_split_none (s : string) :
  Str.rfind_split sep s = None -> Str.contains sep s = false.
Proof.
  induction s as [|d rest IH]; simpl; [done|].
  destruct (Str.rfind_split sep rest) as [[h t]|]; [done|].
  destruct (Ascii.eqb d sep); [done|]. auto.
Qed.

(** The split found from the right is at the last separator. *)
Lemma rfind_split_some (s h t : string) :
  Str.rfind_split sep s = Some (h, t) ->
  s = h +:+ String sep t /\ Str.contains sep t = false.
Proof.
  revert h t. induction s as [|d rest IH]; intros h t; simpl; [done|].
  destruct (Str.rfind_split sep rest) as [[h' t']|] eqn:E.
  - intros [= <- <-]. destruct (IH _ _ eq_refl) as [-> Hno].
    by split.
  - destruct (Ascii.eqb_spec d sep) as [->|]; [|done].
    intros [= <- <-]. split; [done|]. by apply rfind_split_none.
Qed.

Lemma rfind_split_is_some (s : string) :
  Str.contains sep s = true -> is_Some (Str.rfind_split sep s).
Proof.
  intros Hc. destruct (Str.rfind_split sep s) as [p|] eqn:E; [by eexists|].
  apply rfind_split_none in E. congruence.
Qed.

Lemma contains_app (s t : string) :
  Str.contains sep (s +:+ String sep t) = true.
Proof.
  induction s as [|d rest IH]; simpl.
  - by rewrite Ascii.eqb_refl.
  - by destruct (Ascii.eqb d sep).
Qed.

(** A hyphen-free tail fixes where [rfind_split] cuts. *)
Lemma rfind_split_app (h t : string) :
  Str.contains sep t = false ->
  Str.rfind_split sep (h +:+ String sep t) = Some (h, t).
Proof.
  intros Hno.
  assert (Str.rfind_split sep t = None) as Ht.
  { destruct (Str.rfind_split sep t) as [[a b]|] eqn:E; [|done].
    apply rfind_split_some in E as [-> _].
    by rewrite contains_app in Hno. }
  induction h as [|d rest IH]; simpl.
  - by rewrite Ht, Ascii.eqb_refl.
  - by rewrite IH.
Qed.

Lemma find_split_none (s : string) :
  Str.contains sep s = false -> Str.find_split sep s = None.
Proof.
  induction s as [|d rest IH]; simpl; [done|].
  destruct (Ascii.eqb d sep); [done|]. intros H. by rewrite IH.
Qed.

End StrFacts.

Lemma replace_contains (a b : ascii) (s : string) :
  Str.contains a s = true -> Str.contains b (Str.replace a b s) = true.
Proof.
  induction s as [|d rest IH]; simpl; [done|].
  destruct (Ascii.eqb d a).
  - by rewrite Ascii.eqb_refl.
  - intros H. destruct (Ascii.eqb d b); auto.
Qed.

Lemma startswith_spec (p s : string) :
  Str.startswith p s = true <-> exists rest, s = p +:+ rest.
Proof.
  revert s. induction p as [|a p IH]; intros s; simpl.
  - split; [by exists s|done].
  - destruct s as [|b s].
    + split; [done|]. by intros [rest [=]].
    + destruct (Ascii.eqb_spec a b) as [->|Hne].
      * rewrite IH. split; intros [rest H]; exists rest.
        -- by rewrite H.
        -- by injection H.
      * split; [done|]. intros [rest H]. by injection H.
Qed.

(** ** Package *)

(** A key other than [pkgver] never becomes [pkgver] by normalisation:
    a rewritten key contains an underscore. *)
Lemma normalised_key_not_pkgver (k : string) :
  k <> "pkgver" ->
  (if Str.contains "-" k then Str.replace "-" "_" k else k) <> "pkgver".
Proof.
  intros Hk. destruct (Str.contains "-" k) eqn:E; [|done].
  intros Heq. apply (replace_contains _ "_") in E. by rewrite Heq in E.
Qed.

Lemma init_item_pkgver (self : Package.t) (kv : string * value) :
  kv.1 <> "pkgver" ->
  Package.init_item self kv !! "pkgver" = self !! "pkgver".
Proof.
  intros Hk. unfold Package.init_item.
  case_decide; [|done].
  by rewrite lookup_insert_ne by by apply normalised_key_not_pkgver.
Qed.

Lemma init_pkgver_unset (kwargs : Dict.t value) (self : Package.t) :
  "pkgver" ∉ Dict.keys kwargs ->
  fold_left Package.init_item kwargs self !! "pkgver" = self !! "pkgver".
Proof.
  revert self. induction kwargs as [|kv rest IH]; intros self Hk; simpl; [done|].
  unfold Dict.keys in Hk. rewrite fmap_cons, not_elem_of_cons in Hk.
  destruct Hk as [Hne Hrest].
  rewrite IH by done. by apply init_item_pkgver.
Qed.

Lemma pkgver_unset_raises (self : Package.t) :
  self !! "pkgver" = None ->
  Package.pkgname self = Raise AttributeError /\
  Package.version self = Raise AttributeError.
Proof.
  intros H. unfold Package.pkgname, Package.version, Package.getattr.
  by rewrite H.
Qed.

(** Each entry of the converted list comes from one character. *)
Lemma alternatives_of_str_length (v : string) :
  length (Package.alternatives_of_str v) = String.length v.
Proof.
  unfold Package.alternatives_of_str. rewrite length_map.
  induction v as [|c rest IH]; simpl; [done|]. by rewrite IH.
Qed.

(** [partition] on an entry without the separator: the whole entry comes
    first and the rest is empty. *)
Lemma partition_no_separator (sep : ascii) (s : string) :
  Str.contains sep s = false -> Str.partition sep s = (s, "", "").
Proof.
  intros H. unfold Str.partition. by rewrite find_split_none.
Qed.

(** C3: for a package whose [pkgver] contains a hyphen, [pkgname] is what
    stands before the last hyphen, [version] what stands after it (so the
    version holds no hyphen, and any way of writing [pkgver] as
    [n-v] with [v] free of hyphens gives back [n] and [v]), and
    [pkgname + "-" + version] is [pkgver] again. *)
Theorem pkgname_version_rightmost_split (self : Package.t) (pkgver : string) :
  Package.getattr self "pkgver" = Ok (VStr pkgver) ->
  Str.contains "-" pkgver = true ->
  exists name ver,
    Package.pkgname self = Ok name /\
    Package.version self = Ok ver /\
    Str.contains "-" ver = false /\
    name +:+ "-" +:+ ver = pkgver /\
    (forall n v, pkgver = n +:+ "-" +:+ v -> Str.contains "-" v = false ->
                 n = name /\ v = ver).
Proof.
  intros Hattr Hc.
  destruct (rfind_split_is_some _ _ Hc) as [[name ver] Hsplit].
  exists name, ver.
  unfold Package.pkgname, Package.version. rewrite Hattr. simpl.
  unfold Str.rpartition. rewrite Hsplit. simpl.
  destruct (rfind_split_some _ _ _ _ Hsplit) as [Heq Hno].
  split; [done|]. split; [done|]. split; [done|]. split; [done|].
  intros n v Hv Hnv.
  assert (Str.rfind_split "-" pkgver = Some (n, v)) as Hnv_split.
  { rewrite Hv. by apply (rfind_split_app "-" n v). }
  rewrite Hsplit in Hnv_split. by injection Hnv_split.
Qed.

Lemma pkgname_version_rightmost_split_witness :
  exists name ver,
    Package.pkgname (Package.__init__ [("pkgver", VStr "xbps-static-0.60.5_1")]) = Ok name /\
    Package.version (Package.__init__ [("pkgver", VStr "xbps-static-0.60.5_1")]) = Ok ver /\
    Str.contains "-" ver = false /\
    name +:+ "-" +:+ ver = "xbps-static-0.60.5_1" /\
    (forall n v, "xbps-static-0.60.5_1" = n +:+ "-" +:+ v ->
                 Str.contains "-" v = false -> n = name /\ v = ver).
Proof.
  apply (pkgname_version_rightmost_split
           (Package.__init__ [("pkgver", VStr "xbps-static-0.60.5_1")])
           "xbps-static-0.60.5_1"); reflexivity.
Defined.

(** C2: evaluation of the constructor on the string
    ["x11:/usr/bin/x"] for [alternatives].  The loop runs over the
    characters of the string, so the stored list has one entry per
    character, each with an empty path, and not the single entry
    [("x11", "/usr/bin/x")]. *)
Theorem alternatives_str_split_per_character :
  (self ← Package.new [("alternatives", VStr "x11:/usr/bin/x")];
   Package.getattr self "alternatives")
  = Ok (VAlts [("x", MkPath ""); ("1", MkPath ""); ("1", MkPath "");
               ("", MkPath ""); ("/", MkPath ""); ("u", MkPath "");
               ("s", MkPath ""); ("r", MkPath ""); ("/", MkPath "");
               ("b", MkPath ""); ("i", MkPath ""); ("n", MkPath "");
               ("/", MkPath ""); ("x", MkPath "")]).
Proof. vm_compute. reflexivity. Qed.

(** C10: construction from a mapping with the key [self] raises
    [TypeError], where the claim says that no mapping makes construction
    raise: the receiver of [__init__(self, **kwargs)] already binds the
    parameter of that name. *)
Lemma package_new_self_keyword_raises :
  Package.new [("self", VStr "x")] = Raise TypeError.
Proof. reflexivity. Qed.

(** For every keyword mapping without the key [self], construction
    returns an instance and raises nothing; when the mapping has no
    [pkgver] the instance has no such attribute, and reading [pkgname] or
    [version] is what raises. *)
Theorem package_new_never_checks_pkgver (kwargs : Dict.t value) :
  "self" ∉ Dict.keys kwargs ->
  Package.new kwargs = Ok (Package.__init__ kwargs) /\
  ("pkgver" ∉ Dict.keys kwargs ->
     Package.__init__ kwargs !! "pkgver" = None /\
     Package.pkgname (Package.__init__ kwargs) = Raise AttributeError /\
     Package.version (Package.__init__ kwargs) = Raise AttributeError).
Proof.
  intros Hself. split.
  - unfold Package.new. by case_decide.
  - intros Hpkgver.
    assert (Package.__init__ kwargs !! "pkgver" = None) as Hnone.
    { unfold Package.__init__. by rewrite init_pkgver_unset. }
    split; [done|]. by apply pkgver_unset_raises.
Qed.

Lemma package_new_never_checks_pkgver_witness :
  Package.new [("architecture", VStr "x86_64"); ("short-desc", VStr "x")]
    = Ok (Package.__init__
            [("architecture", VStr "x86_64"); ("short-desc", VStr "x")]) /\
  Package.pkgname
    (Package.__init__ [("architecture", VStr "x86_64"); ("short-desc", VStr "x")])
    = Raise AttributeError.
Proof.
  assert ("self" ∉ Dict.keys [("architecture", VStr "x86_64"); ("short-desc", VStr "x")])
    as Hself.
  { intros [[=]|[[=]|[]%elem_of_nil]%elem_of_cons]%elem_of_cons. }
  assert ("pkgver" ∉ Dict.keys [("architecture", VStr "x86_64"); ("short-desc", VStr "x")])
    as Hpkgver.
  { intros [[=]|[[=]|[]%elem_of_nil]%elem_of_cons]%elem_of_cons. }
  destruct (package_new_never_checks_pkgver _ Hself) as [Hnew Hunset].
  split; [exact Hnew|]. exact (proj1 (proj2 (Hunset Hpkgver))).
Defined.

(** ** Loops in the [result] monad *)

Lemma bind_ok_inv {A B : Type} (m : result A) (f : A -> result B) (b : B) :
  m ≫= f = Ok b -> exists a, m = Ok a /\ f a = Ok b.
Proof. destruct m as [a|e]; [by exists a|done]. Qed.

Lemma for_each_inv {A S : Type} (P : S -> Prop) (xs : list A)
    (body : A -> S -> result S) (s r : S) :
  (forall x s0 s1, x ∈ xs -> P s0 -> body x s0 = Ok s1 -> P s1) ->
  P s -> for_each xs body s = Ok r -> P r.
Proof.
  revert s. induction xs as [|x rest IH]; intros s Hbody Hs; simpl.
  - by intros [= <-].
  - intros H. apply bind_ok_inv in H as (s' & Hx & Hrest).
    apply (IH s'); [|by eapply Hbody; [left|..]|done].
    intros y s0 s1 Hy. apply Hbody. by right.
Qed.

Lemma fold_left_inv {A S : Type} (P : S -> Prop) (f : S -> A -> S)
    (xs : list A) (s : S) :
  (forall x s0, x ∈ xs -> P s0 -> P (f s0 x)) -> P s -> P (fold_left f xs s).
Proof.
  revert s. induction xs as [|x rest IH]; intros s Hf Hs; simpl; [done|].
  apply IH; [|by apply Hf; [left|]].
  intros y s0 Hy. apply Hf. by right.
Qed.

(** ** Dictionaries *)

Section DictFacts.

Context {V : Type}.
Implicit Types (d : Dict.t V) (k : string).

Lemma get_is_some d k : is_Some (Dict.get d k) <-> k ∈ Dict.keys d.
Proof.
  unfold Dict.keys. induction d as [|[k' v] rest IH]; simpl.
  - split; [by intros [? ?]|by intros ?%elem_of_nil].
  - rewrite elem_of_cons. case_decide as Hk.
    + split; [by left|by eexists].
    + rewrite IH. split; [by right|]. by intros [->|].
Qed.

Lemma mem_true d k : Dict.mem d k = true <-> k ∈ Dict.keys d.
Proof.
  rewrite <- get_is_some. unfold Dict.mem.
  destruct (Dict.get d k) as [v|].
  - split; [by eexists|done].
  - split; [done|by intros [? ?]].
Qed.

Lemma get_none d k : Dict.get d k = None <-> k ∉ Dict.keys d.
Proof.
  rewrite <- get_is_some, eq_None_not_Some. done.
Qed.

Lemma get_set d k k' v :
  Dict.get (Dict.set d k v) k' = if decide (k = k') then Some v else Dict.get d k'.
Proof.
  induction d as [|[k0 v0] rest IH]; simpl.
  - by repeat case_decide.
  - destruct (decide (k0 = k)) as [->|Hne]; simpl.
    + by repeat case_decide.
    + rewrite IH. repeat case_decide; congruence.
Qed.

Lemma keys_del d k k' :
  k' ∈ Dict.keys (Dict.del d k) <-> k' ∈ Dict.keys d /\ k' <> k.
Proof.
  unfold Dict.keys. induction d as [|[k0 v0] rest IH]; simpl.
  - split; [by intros ?%elem_of_nil|by intros [?%elem_of_nil _]].
  - case_decide as Hk; simpl; rewrite ?elem_of_cons, IH.
    + split; [tauto|]. intros [[->|?] ?]; [congruence|done].
    + split; [intros [->|[? ?]]; split; auto; congruence|tauto].
Qed.

Lemma del_not_in d k : k ∉ Dict.keys d -> Dict.del d k = d.
Proof.
  unfold Dict.keys. induction d as [|[k0 v0] rest IH]; simpl; [done|].
  rewrite not_elem_of_cons. intros [Hne Hrest].
  case_decide; [congruence|]. by rewrite IH.
Qed.

End DictFacts.

Lemma keys_append {V : Type} (d : Dict.t (list V)) (k k' : string) (x : V) :
  k' ∈ Dict.keys (Dict.append d k x) <-> k' = k \/ k' ∈ Dict.keys d.
Proof.
  unfold Dict.keys. induction d as [|[k0 v0] rest IH]; simpl.
  - rewrite list_elem_of_singleton. split; [by left|]. intros [?|?%elem_of_nil]; done.
  - case_decide as Hk; simpl; rewrite !elem_of_cons, ?IH.
    + split; [tauto|]. intros [->|[->|?]]; auto.
    + tauto.
Qed.

(** ** The stage check *)

Lemma keys_purge_subset (libs : list string) (used : Dict.t (list string))
    (k : string) :
  k ∈ Dict.keys (purge libs used) -> k ∈ Dict.keys used.
Proof.
  unfold purge.
  apply (fold_left_inv (fun d => k ∈ Dict.keys d -> k ∈ Dict.keys used)); [|done].
  intros lib d _ Hd. destruct (Dict.mem d lib); [|done].
  intros [? _]%keys_del. auto.
Qed.

Lemma keys_purge_gone (libs : list string) (used : Dict.t (list string))
    (lib : string) :
  lib ∈ libs -> lib ∉ Dict.keys (purge libs used).
Proof.
  unfold purge. revert used.
  induction libs as [|l rest IH]; intros used Hin; simpl.
  - by apply elem_of_nil in Hin.
  - apply elem_of_cons in Hin as [<-|Hin]; [|by apply IH].
    intros Hk. apply (keys_purge_subset rest) in Hk.
    destruct (Dict.mem used lib) eqn:E.
    + by apply keys_del in Hk as [_ ?].
    + apply mem_true in Hk. congruence.
Qed.

Lemma purge_not_in (libs : list string) (used : Dict.t (list string)) :
  (forall lib, lib ∈ libs -> lib ∉ Dict.keys used) -> purge libs used = used.
Proof.
  unfold purge. induction libs as [|l rest IH]; intros H; simpl; [done|].
  assert (Dict.mem used l = false) as ->.
  { apply not_true_is_false. rewrite mem_true. apply H. by left. }
  apply IH. intros lib Hlib. apply H. by right.
Qed.

Lemma old_shlibs_of_sound (self : Repodata) (old_shlibs : Dict.t string) :
  old_shlibs_of self = Ok old_shlibs ->
  forall lib prov, Dict.get old_shlibs lib = Some prov -> old_provider self lib prov.
Proof.
  unfold old_shlibs_of.
  apply (for_each_inv
           (fun d => forall lib prov, Dict.get d lib = Some prov ->
                                      old_provider self lib prov)); [|done].
  intros pkgname d d' Hname Hd.
  destruct (Dict.get (index self) pkgname) as [pkg|] eqn:Hpkg;
    [|by intros [= <-]].
  intros (libs & Hlibs & [= <-])%bind_ok_inv. unfold record_old.
  apply (fold_left_inv
           (fun d => forall lib prov, Dict.get d lib = Some prov ->
                                      old_provider self lib prov)); [|done].
  intros shlib d0 Hshlib Hd0 lib prov. rewrite get_set.
  case_decide as Heq; [|by apply Hd0].
  intros [= <-]. subst lib. split; [done|]. by exists pkg, libs.
Qed.

Lemma used_shlibs_of_keys (self : Repodata) (old_shlibs : Dict.t string)
    (used_shlibs : Dict.t (list string)) :
  used_shlibs_of self old_shlibs = Ok used_shlibs ->
  forall lib, lib ∈ Dict.keys used_shlibs -> lib ∈ Dict.keys old_shlibs.
Proof.
  unfold used_shlibs_of.
  apply (for_each_inv
           (fun d => forall lib, lib ∈ Dict.keys d -> lib ∈ Dict.keys old_shlibs)).
  - intros pkgname d d' _ Hd.
    destruct (match Dict.get (stage self) pkgname with
              | Some pkg => Some pkg
              | None => Dict.get (index self) pkgname
              end) as [pkg|]; [|by intros [= <-]].
    intros (libs & _ & [= <-])%bind_ok_inv. unfold record_used.
    apply (fold_left_inv
             (fun d => forall lib, lib ∈ Dict.keys d -> lib ∈ Dict.keys old_shlibs));
      [|done].
    intros shlib d0 _ Hd0 lib.
    destruct (Dict.mem old_shlibs shlib) eqn:Hmem; [|by apply Hd0].
    intros [->|Hin]%keys_append; [by apply mem_true|by apply Hd0].
  - by intros lib ?%elem_of_nil.
Qed.

Lemma purge_index_keys (self : Repodata) (used used' : Dict.t (list string)) :
  purge_index self used = Ok used' ->
  forall lib, lib ∈ Dict.keys used' -> lib ∈ Dict.keys used.
Proof.
  unfold purge_index.
  apply (for_each_inv
           (fun d => forall lib, lib ∈ Dict.keys d -> lib ∈ Dict.keys used));
    [|done].
  intros item d d' _ Hd. destruct (Dict.mem (stage self) item.1).
  - by intros [= <-].
  - intros (libs & _ & [= <-])%bind_ok_inv lib Hlib.
    by apply Hd, (keys_purge_subset libs).
Qed.

(** The loop of purge step B over any list of staged items: keys only
    go away, and the libraries of every visited item are gone. *)
Lemma purge_items_keys (items : RepoIndex) (used used' : Dict.t (list string)) :
  for_each items
    (fun item d => libs ← Package.shlib_provides item.2; mret (purge libs d))
    used = Ok used' ->
  forall lib, lib ∈ Dict.keys used' -> lib ∈ Dict.keys used.
Proof.
  apply (for_each_inv
           (fun d => forall lib, lib ∈ Dict.keys d -> lib ∈ Dict.keys used));
    [|done].
  intros item d d' _ Hd (libs & _ & [= <-])%bind_ok_inv lib Hlib.
  by apply Hd, (keys_purge_subset libs).
Qed.

Lemma purge_items_gone (items : RepoIndex) (used used' : Dict.t (list string)) :
  for_each items
    (fun item d => libs ← Package.shlib_provides item.2; mret (purge libs d))
    used = Ok used' ->
  forall item libs lib,
    item ∈ items -> Package.shlib_provides item.2 = Ok libs -> lib ∈ libs ->
    lib ∉ Dict.keys used'.
Proof.
  revert used. induction items as [|x rest IH]; intros used Hrun item libs lib Hin.
  - by apply elem_of_nil in Hin.
  - simpl in Hrun. apply bind_ok_inv in Hrun as (d & Hx & Hrest).
    apply elem_of_cons in Hin as [->|Hin]; [|by eapply IH].
    intros Hlibs Hlib Hkey.
    apply (purge_items_keys _ _ _ Hrest) in Hkey.
    apply bind_ok_inv in Hx as (libs' & Hlibs' & [= <-]).
    rewrite Hlibs in Hlibs'. injection Hlibs' as <-.
    by apply (keys_purge_gone libs used lib).
Qed.

(** The phases behind a result of [compute_stage]. *)
Lemma compute_stage_inv (self : Repodata) (res : list StageDiff) :
  compute_stage self = Ok res ->
  (stage self = [] /\ res = []) \/
  exists old_shlibs used0 used1 used2,
    old_shlibs_of self = Ok old_shlibs /\
    used_shlibs_of self old_shlibs = Ok used0 /\
    purge_index self used0 = Ok used1 /\
    purge_stage self used1 = Ok used2 /\
    res = collect old_shlibs used2.
Proof.
  unfold compute_stage. case_decide as Hlen.
  - intros [= <-]. left. split; [|done]. by apply nil_length_inv.
  - intros (old & Hold & H)%bind_ok_inv.
    apply bind_ok_inv in H as (used0 & Hused0 & H).
    apply bind_ok_inv in H as (used1 & Hused1 & H).
    apply bind_ok_inv in H as (used2 & Hused2 & [= <-]).
    right. by exists old, used0, used1, used2.
Qed.

Lemma elem_of_collect (old_shlibs : Dict.t string)
    (used_shlibs : Dict.t (list string)) (d : StageDiff) :
  d ∈ collect old_shlibs used_shlibs ->
  shlib d ∈ Dict.keys used_shlibs /\
  provider d = Dict.get old_shlibs (shlib d).
Proof.
  unfold collect. intros (item & -> & Hitem)%list_elem_of_fmap. simpl.
  split; [|done]. unfold Dict.keys. by apply list_elem_of_fmap_2.
Qed.

(** C5: with an empty stage, [compute_stage] returns the empty list,
    whatever the committed index (and the metadata) holds. *)
Theorem compute_stage_empty_stage (idx : RepoIndex) (m : option RepoMeta) :
  compute_stage {| index := idx; stage := []; meta := m |} = Ok [].
Proof. reflexivity. Qed.

(** A package built without its library lists has no such attributes
    (the factories of the dataclass are never run), and the stage check
    raises when it reads them. *)
Example compute_stage_unset_lists_raise :
  Package.shlib_requires Scenario.A_bare = Raise AttributeError /\
  compute_stage Scenario.bare = Raise AttributeError.
Proof. split; reflexivity. Qed.

(** C4: in every result of [compute_stage], each [StageDiff] has a
    provider; it is the name [old_shlibs] records for the library, that
    is a name of the stage whose committed package provides the
    library. *)
Theorem stage_diff_provider_present (self : Repodata) (res : list StageDiff) :
  compute_stage self = Ok res ->
  exists old_shlibs,
    old_shlibs_of self = Ok old_shlibs /\
    forall d, d ∈ res ->
      exists prov,
        provider d = Some prov /\
        Dict.get old_shlibs (shlib d) = Some prov /\
        old_provider self (shlib d) prov.
Proof.
  intros [[Hstage ->]|(old & used0 & used1 & used2 & Hold & Hused0 & Hused1 & Hused2 & ->)]%compute_stage_inv.
  - exists []. split; [|by intros d ?%elem_of_nil].
    unfold old_shlibs_of. by rewrite Hstage.
  - exists old. split; [done|]. intros d [Hkey Hprov]%elem_of_collect.
    apply (purge_items_keys _ _ _ Hused2) in Hkey.
    apply (purge_index_keys _ _ _ Hused1) in Hkey.
    apply (used_shlibs_of_keys _ _ _ Hused0) in Hkey.
    apply get_is_some in Hkey as [prov Hget].
    exists prov. rewrite Hprov. split; [done|]. split; [done|].
    by apply (old_shlibs_of_sound self old).
Qed.

Lemma stage_diff_provider_present_witness :
  exists old_shlibs,
    old_shlibs_of Scenario.dropped = Ok old_shlibs /\
    forall d,
      d ∈ [{| shlib := "libfoo.so.1"; provider := Some "A"; required_by := ["B"] |}] ->
      exists prov,
        provider d = Some prov /\
        Dict.get old_shlibs (shlib d) = Some prov /\
        old_provider Scenario.dropped (shlib d) prov.
Proof.
  apply (stage_diff_provider_present Scenario.dropped). reflexivity.
Defined.

(** *** A two-package index whose first package is replaced

    The phases of [compute_stage] on [replaces_first], for packages whose
    library lists can be read. *)

Section ReplacesFirst.

Variables (a b lib : string) (pa pb pa_new : Package.t) (m : option RepoMeta).
Variables (provides_b requires_new provides_new : list string).
Hypothesis Hab : a <> b.
Hypothesis Hpa : Package.shlib_provides pa = Ok [lib].
Hypothesis Hrb : Package.shlib_requires pb = Ok [lib].
Hypothesis Hpb : Package.shlib_provides pb = Ok provides_b.
Hypothesis Hrn : Package.shlib_requires pa_new = Ok requires_new.
Hypothesis Hpn : Package.shlib_provides pa_new = Ok provides_new.

Local Opaque record_old record_used purge.

Lemma replaces_first_old :
  old_shlibs_of (replaces_first a b pa pb pa_new m) = Ok [(lib, a)].
Proof.
  unfold old_shlibs_of. simpl.
  rewrite (decide_True (P := a = a)) by done. by rewrite Hpa.
Qed.

Lemma replaces_first_used (old_shlibs : Dict.t string) :
  used_shlibs_of (replaces_first a b pa pb pa_new m) old_shlibs
  = Ok (record_used old_shlibs b [lib] (record_used old_shlibs a requires_new [])).
Proof.
  unfold used_shlibs_of. simpl.
  rewrite !(decide_True (P := a = a)) by done. rewrite Hrn. simpl.
  rewrite !(decide_False (P := a = b)) by done.
  rewrite (decide_True (P := b = b)) by done.
  by rewrite Hrb.
Qed.

Lemma replaces_first_purge_index (used_shlibs : Dict.t (list string)) :
  purge_index (replaces_first a b pa pb pa_new m) used_shlibs
  = Ok (purge provides_b used_shlibs).
Proof.
  unfold purge_index, Dict.mem. simpl.
  rewrite (decide_True (P := a = a)) by done. simpl.
  rewrite (decide_False (P := a = b)) by done.
  by rewrite Hpb.
Qed.

Lemma replaces_first_purge_stage (used_shlibs : Dict.t (list string)) :
  purge_stage (replaces_first a b pa pb pa_new m) used_shlibs
  = Ok (purge provides_new used_shlibs).
Proof. unfold purge_stage. simpl. by rewrite Hpn. Qed.

Lemma replaces_first_compute_stage :
  compute_stage (replaces_first a b pa pb pa_new m)
  = Ok (collect [(lib, a)]
          (purge provides_new
             (purge provides_b
                (record_used [(lib, a)] b [lib]
                   (record_used [(lib, a)] a requires_new []))))).
Proof.
  unfold compute_stage. rewrite decide_False by done.
  rewrite replaces_first_old. simpl.
  rewrite replaces_first_used. simpl.
  rewrite replaces_first_purge_index. simpl.
  by rewrite replaces_first_purge_stage.
Qed.

End ReplacesFirst.

Lemma record_used_skips (old_shlibs : Dict.t string) (pkgname : string)
    (libs : list string) (used_shlibs : Dict.t (list string)) :
  (forall lib, lib ∈ libs -> lib ∉ Dict.keys old_shlibs) ->
  record_used old_shlibs pkgname libs used_shlibs = used_shlibs.
Proof.
  unfold record_used. revert used_shlibs.
  induction libs as [|l rest IH]; intros used_shlibs H; simpl; [done|].
  assert (Dict.mem old_shlibs l = false) as ->.
  { apply not_true_is_false. rewrite mem_true. apply H. by left. }
  apply IH. intros lib Hlib. apply H. by right.
Qed.

Lemma keys_record_used (old_shlibs : Dict.t string) (pkgname : string)
    (libs : list string) (used_shlibs : Dict.t (list string)) (lib : string) :
  lib ∈ Dict.keys (record_used old_shlibs pkgname libs used_shlibs) ->
  lib ∈ Dict.keys used_shlibs \/ lib ∈ Dict.keys old_shlibs.
Proof.
  unfold record_used.
  apply (fold_left_inv
           (fun d => lib ∈ Dict.keys d ->
                     lib ∈ Dict.keys used_shlibs \/ lib ∈ Dict.keys old_shlibs));
    [|by left].
  intros shlib d _ Hd.
  destruct (Dict.mem old_shlibs shlib) eqn:Hmem; [|done].
  intros [->|Hin]%keys_append; [right; by apply mem_true|by apply Hd].
Qed.

(** With every library list set: the index holds [a], which provides
    [lib], and [b], which requires [lib]; the stage holds only a
    replacement for [a] that neither provides nor requires [lib].  Then
    [compute_stage] returns exactly one [StageDiff]: [lib], provided by
    [a], required by [b]. *)
Theorem compute_stage_dropped_library
    (a b lib : string) (pa pb pa_new : Package.t) (m : option RepoMeta)
    (provides_b requires_new provides_new : list string) :
  a <> b ->
  Package.shlib_provides pa = Ok [lib] ->
  Package.shlib_requires pb = Ok [lib] ->
  Package.shlib_provides pb = Ok provides_b ->
  Package.shlib_requires pa_new = Ok requires_new ->
  Package.shlib_provides pa_new = Ok provides_new ->
  lib ∉ provides_b -> lib ∉ requires_new -> lib ∉ provides_new ->
  compute_stage (replaces_first a b pa pb pa_new m)
  = Ok [{| shlib := lib; provider := Some a; required_by := [b] |}].
Proof.
  intros Hab Hpa Hrb Hpb Hrn Hpn Hnb Hnr Hnn.
  rewrite (replaces_first_compute_stage a b lib pa pb pa_new m
             provides_b requires_new provides_new) by done.
  assert (forall libs : list string,
             lib ∉ libs -> forall l, l ∈ libs -> l ∉ [lib]) as Hother.
  { intros libs Hlibs l Hl ->%list_elem_of_singleton. done. }
  rewrite (record_used_skips [(lib, a)] a requires_new) by by apply Hother.
  assert (record_used [(lib, a)] b [lib] [] = [(lib, [b])]) as ->.
  { unfold record_used, Dict.mem. simpl. by rewrite decide_True by done. }
  rewrite (purge_not_in provides_b) by by apply Hother.
  rewrite (purge_not_in provides_new) by by apply Hother.
  unfold collect. simpl. by rewrite decide_True by done.
Qed.

(** C1: on the scenario built from the attributes it names ([A] from
    its provides, [B] from its requires, the replacement for [A] with no
    library list) [compute_stage] raises [AttributeError] where the claim
    has it return one [StageDiff]: the replacement has no
    [shlib_requires] attribute, since the factories of the dataclass are
    never run. *)
Theorem compute_stage_dropped_library_raises :
  Package.shlib_requires Scenario.A_bare = Raise AttributeError /\
  compute_stage Scenario.dropped_as_worded = Raise AttributeError.
Proof. split; reflexivity. Qed.

Lemma compute_stage_dropped_library_witness :
  compute_stage Scenario.dropped
  = Ok [{| shlib := "libfoo.so.1"; provider := Some "A"; required_by := ["B"] |}].
Proof.
  apply (compute_stage_dropped_library "A" "B" "libfoo.so.1"
           Scenario.A Scenario.B Scenario.A_dropped None [] [] []);
    first [ reflexivity | discriminate | apply not_elem_of_nil ].
Defined.

(** Purge step B takes out of the result every library that the
    staged version of a staged package provides; so, with every library
    list set, when the replacement for [a] still provides [lib], the only
    library [a] provided, [compute_stage] returns the empty list. *)
Theorem compute_stage_kept_library :
  (forall (self : Repodata) (res : list StageDiff) (item : string * Package.t)
          (libs : list string) (lib : string),
      compute_stage self = Ok res ->
      item ∈ stage self ->
      Package.shlib_provides item.2 = Ok libs ->
      lib ∈ libs ->
      lib ∉ shlib <$> res) /\
  (forall (a b lib : string) (pa pb pa_new : Package.t) (m : option RepoMeta)
          (provides_b requires_new provides_new : list string),
      a <> b ->
      Package.shlib_provides pa = Ok [lib] ->
      Package.shlib_requires pb = Ok [lib] ->
      Package.shlib_provides pb = Ok provides_b ->
      Package.shlib_requires pa_new = Ok requires_new ->
      Package.shlib_provides pa_new = Ok provides_new ->
      lib ∈ provides_new ->
      compute_stage (replaces_first a b pa pb pa_new m) = Ok []).
Proof.
  split.
  - intros self res item libs lib Hres Hitem Hlibs Hlib.
    apply compute_stage_inv in Hres
      as [[Hstage ->]|(old & used0 & used1 & used2 & _ & _ & _ & Hused2 & ->)].
    + apply not_elem_of_nil.
    + intros (d & -> & [Hkey _]%elem_of_collect)%list_elem_of_fmap.
      by apply (purge_items_gone _ _ _ Hused2 item libs (shlib d)).
  - intros a b lib pa pb pa_new m provides_b requires_new provides_new
      Hab Hpa Hrb Hpb Hrn Hpn Hlib.
    rewrite (replaces_first_compute_stage a b lib pa pb pa_new m
               provides_b requires_new provides_new) by done.
    f_equal.
    set (used := purge provides_new _).
    assert (forall k, k ∉ Dict.keys used) as Hnone.
    { intros k Hk. assert (k = lib) as ->.
      { apply keys_purge_subset, keys_purge_subset in Hk.
        apply keys_record_used in Hk as [Hk|Hk];
          [apply keys_record_used in Hk as [Hk|Hk]|].
        - by apply elem_of_nil in Hk.
        - by apply list_elem_of_singleton in Hk.
        - by apply list_elem_of_singleton in Hk. }
      by apply (keys_purge_gone provides_new) in Hk. }
    destruct used as [|[k v] rest]; [done|].
    exfalso. apply (Hnone k). by left.
Qed.

(** C6: on the scenario built from the attributes it names ([A] and its
    replacement from their provides, [B] from its requires)
    [compute_stage] raises [AttributeError] where the claim has it return
    the empty list: the replacement has no [shlib_requires] attribute,
    since the factories of the dataclass are never run. *)
Theorem compute_stage_kept_library_raises :
  Package.shlib_requires Scenario.A_kept_provides_only = Raise AttributeError /\
  compute_stage Scenario.kept_as_worded = Raise AttributeError.
Proof. split; reflexivity. Qed.

Lemma compute_stage_kept_library_witness :
  compute_stage Scenario.kept = Ok [].
Proof.
  apply (proj2 compute_stage_kept_library "A" "B" "libfoo.so.1"
           Scenario.A Scenario.B Scenario.A_kept None [] [] ["libfoo.so.1"]);
    first [ reflexivity | discriminate | apply list_elem_of_singleton; reflexivity ].
Defined.

(** ** Loading *)

(** C7, as the claim states it, fails for a stream that is well-formed
    XML but no property list: the decoder reports it with [ValueError],
    which [_read_index] does not absorb. *)
Lemma read_index_keyless_value_raises :
  _read_index plistlib_on_samples keyless_value_document = Raise ValueError.
Proof. reflexivity. Qed.

(** On the other three sample streams the decoding is tolerated or
    succeeds: each gives the empty index. *)
Example read_index_tolerated_samples :
  _read_index plistlib_on_samples [] = Ok [] /\
  _read_index plistlib_on_samples truncated_document = Ok [] /\
  _read_index plistlib_on_samples empty_dict_document = Ok [].
Proof. repeat split; reflexivity. Qed.

(** C7 (amended): when the property-list decoder raises [ExpatError],
    its report of a stream that is empty or no well-formed document,
    [_read_index] returns the empty index and raises nothing; any other
    exception of the decoder, the [ValueError] of a document that is no
    property list among them, reaches the caller unchanged. *)
Theorem read_index_absorbs_expat_error
    (plist_load : bytes -> result (Dict.t (Dict.t value))) (f : bytes) :
  (plist_load f = Raise ExpatError -> _read_index plist_load f = Ok []) /\
  (forall e, e <> ExpatError -> plist_load f = Raise e ->
             _read_index plist_load f = Raise e).
Proof.
  unfold _read_index. split.
  - by intros ->.
  - intros e He ->. simpl. by destruct e.
Qed.

Lemma read_index_absorbs_expat_error_witness :
  _read_index plistlib_on_samples truncated_document = Ok [] /\
  _read_index plistlib_on_samples keyless_value_document = Raise ValueError.
Proof.
  split.
  - apply (proj1 (read_index_absorbs_expat_error plistlib_on_samples
                    truncated_document)).
    reflexivity.
  - apply (proj2 (read_index_absorbs_expat_error plistlib_on_samples
                    keyless_value_document));
      [discriminate|reflexivity].
Defined.

Lemma extractfile_absent (tar : TarFile) (fname : string) :
  fname ∉ Dict.keys tar -> extractfile tar fname = Raise (KeyError fname).
Proof.
  intros Habsent. unfold extractfile.
  assert (Dict.get (rev tar) fname = None) as ->; [|done].
  apply get_none. unfold Dict.keys in *.
  intros (item & -> & Hitem)%list_elem_of_fmap. apply Habsent.
  apply list_elem_of_fmap_2, list_elem_of_In, in_rev.
  by apply list_elem_of_In.
Qed.

(** C8, as the claim states it, fails for an entry that is no file: the
    error does not carry the requested member name. *)
Lemma extract_index_directory_hides_name :
  _extract_index [("index.plist", Directory)] "index.plist"
    = Raise (FileNotFoundError "not a file") /\
  FileNotFoundError "not a file" <> FileNotFoundError "index.plist".
Proof. split; [reflexivity|discriminate]. Qed.

(** C8 (amended): extraction raises [FileNotFoundError] when no member
    has the name, and then the error carries the requested name; it also
    raises [FileNotFoundError] when the member is no file, and then the
    error carries the fixed text [not a file]. *)
Theorem extract_index_member_not_found (tar : TarFile) (fname : string) :
  (fname ∉ Dict.keys tar ->
     _extract_index tar fname = Raise (FileNotFoundError fname)) /\
  (extractfile tar fname = Ok None ->
     _extract_index tar fname = Raise (FileNotFoundError "not a file")).
Proof.
  unfold _extract_index. split.
  - intros Habsent. by rewrite extractfile_absent.
  - by intros ->.
Qed.

Lemma extract_index_member_not_found_witness :
  _extract_index [("index.plist", RegularFile [])] "stage.plist"
    = Raise (FileNotFoundError "stage.plist") /\
  _extract_index [("index.plist", RegularFile []); ("stage.plist", Directory)]
      "stage.plist"
    = Raise (FileNotFoundError "not a file").
Proof.
  split.
  - apply (proj1 (extract_index_member_not_found
                    [("index.plist", RegularFile [])] "stage.plist")).
    intros [=]%list_elem_of_singleton.
  - apply (proj2 (extract_index_member_not_found
                    [("index.plist", RegularFile []); ("stage.plist", Directory)]
                    "stage.plist")).
    reflexivity.
Defined.

(** C9: [from_repodata] hands a [Path] to [from_local]; a string that
    begins with one of the four literal prefixes to [from_remote]; and
    every other string, as a [Path], to [from_local]. *)
Theorem from_repodata_dispatch
    (plist_load : bytes -> result (Dict.t (Dict.t value)))
    (open_archive : RepodataFile -> result TarFile)
    (urlopen_read : string -> result bytes) :
  (forall p : Path,
      from_repodata plist_load open_archive urlopen_read (IsPath p)
      = from_local plist_load open_archive p) /\
  (forall (s prefix rest : string),
      prefix ∈ ["http://"; "https://"; "ftp://"; "socks5://"] ->
      s = prefix +:+ rest ->
      from_repodata plist_load open_archive urlopen_read (IsStr s)
      = from_remote plist_load open_archive urlopen_read s) /\
  (forall s : string,
      (forall prefix rest,
          prefix ∈ ["http://"; "https://"; "ftp://"; "socks5://"] ->
          s <> prefix +:+ rest) ->
      from_repodata plist_load open_archive urlopen_read (IsStr s)
      = from_local plist_load open_archive (MkPath s)).
Proof.
  split; [done|]. split.
  - intros s prefix rest Hprefix Hs. unfold from_repodata.
    assert (existsb (fun prefix => Str.startswith prefix s) remote_prefixes = true)
      as ->; [|done].
    apply existsb_exists. exists prefix. split.
    + by apply list_elem_of_In.
    + apply startswith_spec. by exists rest.
  - intros s Hs. unfold from_repodata.
    assert (existsb (fun prefix => Str.startswith prefix s) remote_prefixes = false)
      as ->; [|done].
    apply not_true_is_false.
    intros (prefix & Hin%list_elem_of_In & [rest Hrest]%startswith_spec)%existsb_exists.
    by apply (Hs prefix rest).
Qed.

Lemma from_repodata_dispatch_witness :
  from_repodata sample_plist_load sample_open_archive sample_urlopen_read
    (IsStr "https://repo-default.voidlinux.org/current/x86_64-repodata")
  = from_remote sample_plist_load sample_open_archive sample_urlopen_read
      "https://repo-default.voidlinux.org/current/x86_64-repodata".
Proof.
  apply (proj1 (proj2 (from_repodata_dispatch
                         sample_plist_load sample_open_archive sample_urlopen_read))
           _ "https://" "repo-default.voidlinux.org/current/x86_64-repodata");
    [|reflexivity].
  apply elem_of_cons. right. apply elem_of_cons. by left.
Defined.

(** * Further properties *)

(** ** Package construction *)

Lemma replace_absent (a b : ascii) (s : string) :
  Str.contains a s = false -> Str.replace a b s = s.
Proof.
  induction s as [|d rest IH]; simpl; [done|].
  destruct (Ascii.eqb d a); [done|]. intros H. by rewrite IH.
Qed.

Lemma replace_removes (a b : ascii) (s : string) :
  a <> b -> Str.contains a (Str.replace a b s) = false.
Proof.
  intros Hab. induction s as [|d rest IH]; simpl; [done|].
  destruct (Ascii.eqb_spec d a) as [->|Hd].
  - destruct (Ascii.eqb_spec b a) as [->|_]; done.
  - destruct (Ascii.eqb_spec d a) as [->|_]; done.
Qed.

Lemma field_of_key_replace (k : string) :
  Package.field_of_key k = Str.replace "-" "_" k.
Proof.
  unfold Package.field_of_key.
  destruct (Str.contains "-" k) eqn:E; [done|]. by rewrite replace_absent.
Qed.

Lemma field_of_key_idem (k : string) :
  Package.field_of_key (Package.field_of_key k) = Package.field_of_key k.
Proof.
  rewrite (field_of_key_replace k). unfold Package.field_of_key at 1.
  by rewrite replace_removes.
Qed.

Lemma init_item_field_of_key (self : Package.t) (k : string) (v : value) :
  Package.init_item self (Package.field_of_key k, v) = Package.init_item self (k, v).
Proof.
  unfold Package.init_item. simpl.
  change (if Str.contains "-" (Package.field_of_key k)
          then Str.replace "-" "_" (Package.field_of_key k)
          else Package.field_of_key k)
    with (Package.field_of_key (Package.field_of_key k)).
  by rewrite field_of_key_idem.
Qed.

Lemma init_item_other (self : Package.t) (kv : string * value) (k : string) :
  Package.field_of_key kv.1 <> k ->
  Package.init_item self kv !! k = self !! k.
Proof.
  intros Hk. unfold Package.init_item.
  case_decide; [|done]. by rewrite lookup_insert_ne.
Qed.

Lemma init_fold_other (kwargs : Dict.t value) (self : Package.t) (k : string) :
  Forall (fun kv => Package.field_of_key kv.1 <> k) kwargs ->
  fold_left Package.init_item kwargs self !! k = self !! k.
Proof.
  revert self. induction kwargs as [|kv rest IH]; intros self Hk; simpl; [done|].
  apply Forall_cons in Hk as [Hkv Hrest].
  rewrite IH by done. by apply init_item_other.
Qed.

Lemma init_fold_fields (kwargs : Dict.t value) (self : Package.t) :
  dom self ⊆ Package.names ->
  dom (fold_left Package.init_item kwargs self) ⊆ Package.names.
Proof.
  revert self. induction kwargs as [|kv rest IH]; intros self Hself; simpl; [done|].
  apply IH. unfold Package.init_item. case_decide as Hk; [|done].
  rewrite dom_insert_L. intros x [->%elem_of_singleton|Hx]%elem_of_union; auto.
Qed.

(** X1: construction sets no attribute outside the declared fields: a
    key that, with its hyphens turned into underscores, is no field name
    leaves no trace on the instance. *)
Theorem init_sets_only_fields (kwargs : Dict.t value) :
  dom (Package.__init__ kwargs) ⊆ Package.names.
Proof. apply init_fold_fields. by rewrite dom_empty_L. Qed.

(** X2: keys are read up to the hyphen-or-underscore spelling: writing
    every key with underscores builds the same instance. *)
Theorem init_keys_modulo_hyphen (kwargs : Dict.t value) :
  Package.__init__ (map (fun kv => (Str.replace "-" "_" kv.1, kv.2)) kwargs)
  = Package.__init__ kwargs.
Proof.
  unfold Package.__init__. generalize (∅ : Package.t).
  induction kwargs as [|[k v] rest IH]; intros self; simpl; [done|].
  rewrite IH. f_equal.
  rewrite <- field_of_key_replace. apply init_item_field_of_key.
Qed.

(** X3: a field that no keyword stands for is left unset by
    construction; reading it gives [None] when the class declares the
    default [None], and raises [AttributeError] when the field has a
    factory or no default ([pkgver], [architecture] and every list). *)
Theorem init_absent_field (kwargs : Dict.t value) (k : string) :
  k ∈ Package.names ->
  Forall (fun kv => Package.field_of_key kv.1 <> k) kwargs ->
  Package.getattr (Package.__init__ kwargs) k
  = match Dict.get Package.fields k with
    | Some Package.DefaultNone => Ok VNone
    | _ => Raise AttributeError
    end.
Proof.
  intros _ Habsent. unfold Package.getattr, Package.__init__.
  rewrite init_fold_other by done. rewrite lookup_empty.
  unfold Package.class_attr.
  by destruct (Dict.get Package.fields k) as [[]|].
Qed.

Lemma init_absent_field_witness :
  Package.getattr
    (Package.__init__ [("pkgver", VStr "A-1.0_1"); ("run-depends", VStrs [])])
    "shlib_requires" = Raise AttributeError /\
  Package.getattr
    (Package.__init__ [("pkgver", VStr "A-1.0_1"); ("run-depends", VStrs [])])
    "homepage" = Ok VNone.
Proof.
  split.
  - apply (init_absent_field
             [("pkgver", VStr "A-1.0_1"); ("run-depends", VStrs [])] "shlib_requires").
    + vm_compute. reflexivity.
    + repeat constructor; discriminate.
  - apply (init_absent_field
             [("pkgver", VStr "A-1.0_1"); ("run-depends", VStrs [])] "homepage").
    + vm_compute. reflexivity.
    + repeat constructor; discriminate.
Defined.

Lemma init_app (kwargs : Dict.t value) (kv : string * value) :
  Package.__init__ (kwargs ++ [kv])
  = Package.init_item (Package.__init__ kwargs) kv.
Proof. unfold Package.__init__. by rewrite fold_left_app. Qed.

(** X4: the value of the last keyword for a field is what the field
    reads, as it was given, unless it is a [str] for [alternatives] or
    [build_options]; earlier keywords for the field are overwritten. *)
Theorem init_last_value_stored (kwargs : Dict.t value) (k : string) (v : value) :
  Package.field_of_key k ∈ Package.names ->
  (forall s, v = VStr s ->
     Package.field_of_key k <> "alternatives" /\
     Package.field_of_key k <> "build_options") ->
  Package.getattr (Package.__init__ (kwargs ++ [(k, v)])) (Package.field_of_key k)
  = Ok v.
Proof.
  intros Hfield Hplain. rewrite init_app.
  unfold Package.getattr, Package.init_item. simpl.
  fold (Package.field_of_key k).
  rewrite decide_True by done. rewrite lookup_insert_eq.
  destruct v as [| | |s| | |]; repeat case_decide; try done.
  - by destruct (Hplain s eq_refl).
  - by destruct (Hplain s eq_refl).
Qed.

Lemma init_last_value_stored_witness :
  Package.getattr
    (Package.__init__
       ([("shlib_provides", VStrs ["libold.so.1"])]
        ++ [("shlib-provides", VStrs ["libfoo.so.1"])]))
    (Package.field_of_key "shlib-provides")
  = Ok (VStrs ["libfoo.so.1"]).
Proof.
  apply (init_last_value_stored
           [("shlib_provides", VStrs ["libold.so.1"])]
           "shlib-provides" (VStrs ["libfoo.so.1"])).
  - vm_compute. reflexivity.
  - discriminate.
Defined.

Lemma split_not_nil (sep : ascii) (s : string) : Str.split sep s <> [].
Proof.
  destruct s as [|d rest]; simpl; [done|].
  destruct (Ascii.eqb d sep); [done|]. by destruct (Str.split sep rest).
Qed.

Lemma join_split (sep : ascii) (s : string) :
  Str.join sep (Str.split sep s) = s.
Proof.
  induction s as [|d rest IH]; simpl; [done|].
  destruct (Ascii.eqb_spec d sep) as [->|Hd].
  - pose proof (split_not_nil sep rest) as Hne.
    destruct (Str.split sep rest) as [|piece pieces] eqn:E; [done|].
    simpl in *. by rewrite IH.
  - pose proof (split_not_nil sep rest) as Hne.
    destruct (Str.split sep rest) as [|piece pieces] eqn:E; [done|].
    destruct pieces as [|piece' pieces]; simpl in *; by rewrite <- IH.
Qed.

Lemma split_pieces (sep : ascii) (s : string) :
  Forall (fun piece => Str.contains sep piece = false) (Str.split sep s).
Proof.
  induction s as [|d rest IH]; simpl; [by repeat constructor|].
  destruct (Ascii.eqb d sep) eqn:Hd; [by constructor|].
  destruct (Str.split sep rest) as [|piece pieces]; [by repeat constructor; simpl; rewrite Hd|].
  apply Forall_cons in IH as [Hpiece Hpieces].
  constructor; [|done]. simpl. by rewrite Hd.
Qed.

(** X5: a [str] given for [build_options] is stored as the list of its
    pieces between single spaces: no piece holds a space, and the pieces
    joined by single spaces are the string again. *)
Theorem init_build_options_str (kwargs : Dict.t value) (k s : string) :
  Package.field_of_key k = "build_options" ->
  Package.getattr (Package.__init__ (kwargs ++ [(k, VStr s)])) "build_options"
    = Ok (VStrs (Str.split " " s)) /\
  Forall (fun piece => Str.contains " " piece = false) (Str.split " " s) /\
  Str.join " " (Str.split " " s) = s.
Proof.
  intros Hk. split; [|split; [apply split_pieces|apply join_split]].
  rewrite init_app. unfold Package.getattr, Package.init_item. simpl.
  fold (Package.field_of_key k). rewrite Hk.
  rewrite decide_True by (vm_compute; reflexivity).
  by rewrite lookup_insert_eq.
Qed.

Lemma init_build_options_str_witness :
  Package.getattr
    (Package.__init__ ([("pkgver", VStr "A-1.0_1")]
                       ++ [("build-options", VStr "-DFOO=1 -DBAR=2")]))
    "build_options"
    = Ok (VStrs (Str.split " " "-DFOO=1 -DBAR=2")) /\
  Forall (fun piece => Str.contains " " piece = false)
    (Str.split " " "-DFOO=1 -DBAR=2") /\
  Str.join " " (Str.split " " "-DFOO=1 -DBAR=2") = "-DFOO=1 -DBAR=2".
Proof.
  apply (init_build_options_str [("pkgver", VStr "A-1.0_1")]
           "build-options" "-DFOO=1 -DBAR=2").
  reflexivity.
Defined.

Lemma alternatives_of_str_entries (s : string) :
  Forall (fun entry : string * Path =>
            entry.2 = MkPath "" /\ String.length entry.1 <= 1)
    (Package.alternatives_of_str s).
Proof.
  unfold Package.alternatives_of_str.
  induction s as [|c rest IH]; simpl; [constructor|].
  constructor; [|done]. unfold Str.partition. simpl.
  destruct (Ascii.eqb c ":"); simpl; auto.
Qed.

(** X6: a [str] given for [alternatives] is stored as a list with one
    entry for each character of the string; every entry has the empty
    path and a name of at most one character. *)
Theorem init_alternatives_str (kwargs : Dict.t value) (k s : string) :
  Package.field_of_key k = "alternatives" ->
  exists entries,
    Package.getattr (Package.__init__ (kwargs ++ [(k, VStr s)])) "alternatives"
      = Ok (VAlts entries) /\
    length entries = String.length s /\
    Forall (fun entry : string * Path =>
              entry.2 = MkPath "" /\ String.length entry.1 <= 1) entries.
Proof.
  intros Hk. exists (Package.alternatives_of_str s).
  split; [|split; [apply alternatives_of_str_length|apply alternatives_of_str_entries]].
  rewrite init_app. unfold Package.getattr, Package.init_item. simpl.
  fold (Package.field_of_key k). rewrite Hk.
  rewrite decide_True by (vm_compute; reflexivity).
  by rewrite lookup_insert_eq.
Qed.

Lemma init_alternatives_str_witness :
  exists entries,
    Package.getattr
      (Package.__init__ ([] ++ [("alternatives", VStr "sh:/usr/bin/dash")]))
      "alternatives" = Ok (VAlts entries) /\
    length entries = String.length "sh:/usr/bin/dash" /\
    Forall (fun entry : string * Path =>
              entry.2 = MkPath "" /\ String.length entry.1 <= 1) entries.
Proof.
  apply (init_alternatives_str [] "alternatives" "sh:/usr/bin/dash"). reflexivity.
Defined.

(** X7: [__repr__] reads [pkgname], [version] and [architecture]: for a
    [pkgver] of the form [n-v] with [v] free of hyphens and a [str]
    architecture it is the text with these three parts, and without
    [architecture] it raises [AttributeError]. *)
Theorem repr_of_package (format_other : value -> string) (self : Package.t)
    (n v : string) :
  Package.getattr self "pkgver" = Ok (VStr (n +:+ "-" +:+ v)) ->
  Str.contains "-" v = false ->
  (forall arch,
      Package.getattr self "architecture" = Ok (VStr arch) ->
      Package.__repr__ format_other self
      = Ok ("Package(pkgname='" +:+ n +:+ "', version='" +:+ v
            +:+ "', arch='" +:+ arch +:+ "')")) /\
  (self !! "architecture" = None ->
   Package.__repr__ format_other self = Raise AttributeError).
Proof.
  intros Hpkgver Hv.
  assert (Package.pkgname self = Ok n /\ Package.version self = Ok v) as [Hn Hver].
  { unfold Package.pkgname, Package.version. rewrite Hpkgver. simpl.
    unfold Str.rpartition.
    change (n +:+ "-" +:+ v) with (n +:+ String "-" v).
    by rewrite (rfind_split_app "-" n v Hv). }
  unfold Package.__repr__. rewrite Hn, Hver. simpl. split.
  - by intros arch ->.
  - intros Hnone. unfold Package.getattr. by rewrite Hnone.
Qed.

Lemma repr_of_package_witness :
  Package.__repr__ (fun _ => "")
    (Package.__init__ [("pkgver", VStr "xbps-static-0.60.5_1");
                       ("architecture", VStr "x86_64-musl")])
  = Ok "Package(pkgname='xbps-static', version='0.60.5_1', arch='x86_64-musl')".
Proof.
  apply (proj1 (repr_of_package (fun _ => "")
                  (Package.__init__ [("pkgver", VStr "xbps-static-0.60.5_1");
                                     ("architecture", VStr "x86_64-musl")])
                  "xbps-static" "0.60.5_1" eq_refl eq_refl) "x86_64-musl").
  reflexivity.
Defined.

(** ** More on loops and dictionaries *)

Lemma is_ok_bind {A B : Type} (m : result A) (f : A -> result B) (Q : Prop) :
  (forall a, is_ok (f a) <-> Q) -> is_ok (m ≫= f) <-> is_ok m /\ Q.
Proof.
  intros Hf. destruct m as [a|e]; simpl.
  - rewrite Hf. split; [intros HQ; split; [by exists a|done]|by intros [_ HQ]].
  - split; [by intros [? ?]|by intros [[? ?] _]].
Qed.

(** A loop whose body succeeds or fails by the element alone returns
    exactly when the body succeeds on every element. *)
Lemma for_each_is_ok {A S : Type} (G : A -> Prop) (xs : list A)
    (body : A -> S -> result S) (s : S) :
  (forall x s0, x ∈ xs -> is_ok (body x s0) <-> G x) ->
  is_ok (for_each xs body s) <-> forall x, x ∈ xs -> G x.
Proof.
  revert s. induction xs as [|x rest IH]; intros s Hbody; simpl.
  - split; [by intros _ x ?%elem_of_nil|by exists s].
  - rewrite (is_ok_bind _ _ (forall y, y ∈ rest -> G y)).
    + rewrite Hbody by by left. split.
      * intros [Hx Hrest] y [->|Hy]%elem_of_cons; auto.
      * intros H. split; [apply H; by left|]. intros y Hy. apply H. by right.
    + intros s'. apply IH. intros y s0 Hy. apply Hbody. by right.
Qed.

(** A property that every turn keeps and the turn for [x0] brings about
    holds at the end of the loop. *)
Lemma for_each_establish {A S : Type} (P : S -> Prop) (xs : list A)
    (body : A -> S -> result S) (x0 : A) (s r : S) :
  (forall x s0 s1, x ∈ xs -> body x s0 = Ok s1 -> P s0 -> P s1) ->
  (forall s0 s1, body x0 s0 = Ok s1 -> P s1) ->
  x0 ∈ xs -> for_each xs body s = Ok r -> P r.
Proof.
  revert s. induction xs as [|x rest IH]; intros s Hkeep Hmake Hin Hrun.
  - by apply elem_of_nil in Hin.
  - simpl in Hrun. apply bind_ok_inv in Hrun as (s' & Hx & Hrest).
    apply elem_of_cons in Hin as [<-|Hin].
    + apply (for_each_inv P rest body s' r); [|by eapply Hmake|done].
      intros y s0 s1 Hy Hs0 Hy1. apply (Hkeep y s0 s1); [by right|done|done].
    + apply (IH s'); [|done|done|done].
      intros y s0 s1 Hy. apply Hkeep. by right.
Qed.

Lemma fold_left_establish {A S : Type} (P : S -> Prop) (f : S -> A -> S)
    (xs : list A) (x0 : A) (s : S) :
  (forall x s0, x ∈ xs -> P s0 -> P (f s0 x)) ->
  (forall s0, P (f s0 x0)) ->
  x0 ∈ xs -> P (fold_left f xs s).
Proof.
  revert s. induction xs as [|x rest IH]; intros s Hkeep Hmake Hin.
  - by apply elem_of_nil in Hin.
  - simpl. apply elem_of_cons in Hin as [<-|Hin].
    + apply fold_left_inv; [|done]. intros y s0 Hy. apply Hkeep. by right.
    + apply IH; [|done|done]. intros y s0 Hy. apply Hkeep. by right.
Qed.

Section MoreDictFacts.

Context {V : Type}.
Implicit Types (d : Dict.t V) (k : string).

Lemma get_elem_of d k v : Dict.get d k = Some v -> (k, v) ∈ d.
Proof.
  induction d as [|[k' v'] rest IH]; simpl; [done|].
  case_decide as Hk.
  - intros [= <-]. subst k'. by left.
  - intros H. right. by apply IH.
Qed.

Lemma elem_of_get d k v :
  NoDup (Dict.keys d) -> (k, v) ∈ d -> Dict.get d k = Some v.
Proof.
  unfold Dict.keys. induction d as [|[k' v'] rest IH]; simpl.
  - by intros _ ?%elem_of_nil.
  - intros [Hk' Hrest]%NoDup_cons [[= -> ->]|Hin]%elem_of_cons.
    + by rewrite decide_True.
    + rewrite decide_False; [by apply IH|].
      intros ->. apply Hk'. by apply (list_elem_of_fmap_2 fst) in Hin.
Qed.

Lemma keys_set d k k' v :
  k' ∈ Dict.keys (Dict.set d k v) <-> k' = k \/ k' ∈ Dict.keys d.
Proof.
  rewrite <- !get_is_some, get_set. case_decide as Hk.
  - subst k'. split; [by left|by eexists].
  - split; [by right|]. by intros [->|].
Qed.

Lemma get_del d k k' :
  Dict.get (Dict.del d k) k' = if decide (k = k') then None else Dict.get d k'.
Proof.
  induction d as [|[k0 v0] rest IH]; simpl.
  - by case_decide.
  - destruct (decide (k0 = k)) as [->|Hne]; simpl.
    + rewrite IH. repeat case_decide; congruence.
    + rewrite IH. repeat case_decide; congruence.
Qed.

Lemma NoDup_keys_del d k :
  NoDup (Dict.keys d) -> NoDup (Dict.keys (Dict.del d k)).
Proof.
  unfold Dict.keys. induction d as [|[k0 v0] rest IH]; simpl; [done|].
  intros [Hk0 Hrest]%NoDup_cons. case_decide; [by apply IH|].
  simpl. apply NoDup_cons. split; [|by apply IH].
  intros Hin. apply Hk0. by apply (keys_del rest k k0) in Hin as [? _].
Qed.

End MoreDictFacts.

Lemma get_append {V : Type} (d : Dict.t (list V)) (k k' : string) (x : V) :
  Dict.get (Dict.append d k x) k'
  = if decide (k = k')
    then Some (default [] (Dict.get d k) ++ [x])
    else Dict.get d k'.
Proof.
  induction d as [|[k0 v0] rest IH]; simpl.
  - by repeat case_decide.
  - destruct (decide (k0 = k)) as [->|Hne]; simpl.
    + repeat case_decide; congruence.
    + rewrite IH. repeat case_decide; congruence.
Qed.

Lemma NoDup_keys_append {V : Type} (d : Dict.t (list V)) (k : string) (x : V) :
  NoDup (Dict.keys d) -> NoDup (Dict.keys (Dict.append d k x)).
Proof.
  unfold Dict.keys. induction d as [|[k0 v0] rest IH]; simpl.
  - intros _. apply NoDup_singleton.
  - intros [Hk0 Hrest]%NoDup_cons. case_decide as Hk; simpl.
    + by apply NoDup_cons.
    + apply NoDup_cons. split; [|by apply IH].
      intros [->|Hin]%(keys_append rest k k0 x); done.
Qed.

(** ** The stage check: what is reported *)

Lemma keys_purge_keep (libs : list string) (used : Dict.t (list string))
    (lib : string) :
  lib ∉ libs -> lib ∈ Dict.keys used -> lib ∈ Dict.keys (purge libs used).
Proof.
  intros Hlib. unfold purge.
  apply (fold_left_inv (fun d => lib ∈ Dict.keys d)).
  intros l d Hl Hd. destruct (Dict.mem d l); [|done].
  apply keys_del. split; [done|]. by intros ->.
Qed.

Lemma get_purge (libs : list string) (used : Dict.t (list string))
    (lib : string) (reqs : list string) :
  Dict.get (purge libs used) lib = Some reqs -> Dict.get used lib = Some reqs.
Proof.
  unfold purge.
  apply (fold_left_inv
           (fun d => Dict.get d lib = Some reqs -> Dict.get used lib = Some reqs));
    [|done].
  intros l d _ Hd. destruct (Dict.mem d l); [|done].
  rewrite get_del. by case_decide.
Qed.

Lemma NoDup_keys_purge (libs : list string) (used : Dict.t (list string)) :
  NoDup (Dict.keys used) -> NoDup (Dict.keys (purge libs used)).
Proof.
  unfold purge. apply (fold_left_inv (fun d => NoDup (Dict.keys d))).
  intros l d _ Hd. destruct (Dict.mem d l); [|done]. by apply NoDup_keys_del.
Qed.

Lemma kept_from_refl (used : Dict.t (list string)) : kept_from used used.
Proof. by split. Qed.

Lemma kept_from_purge (libs : list string) (used used' : Dict.t (list string)) :
  kept_from used used' -> kept_from used (purge libs used').
Proof.
  intros [Hdup Hget]. split.
  - intros H. by apply NoDup_keys_purge, Hdup.
  - intros lib reqs H. by apply Hget, (get_purge libs).
Qed.

Lemma purge_index_kept (self : Repodata) (used used' : Dict.t (list string)) :
  purge_index self used = Ok used' -> kept_from used used'.
Proof.
  unfold purge_index.
  apply (for_each_inv (kept_from used)); [|apply kept_from_refl].
  intros item d d' _ Hd. destruct (Dict.mem (stage self) item.1).
  - by intros [= <-].
  - intros (libs & _ & [= <-])%bind_ok_inv. by apply kept_from_purge.
Qed.

Lemma purge_stage_kept (self : Repodata) (used used' : Dict.t (list string)) :
  purge_stage self used = Ok used' -> kept_from used used'.
Proof.
  unfold purge_stage.
  apply (for_each_inv (kept_from used)); [|apply kept_from_refl].
  intros item d d' _ Hd (libs & _ & [= <-])%bind_ok_inv.
  by apply kept_from_purge.
Qed.

(** The libraries of a committed package that is not staged are gone
    after purge step A. *)
Lemma purge_index_gone (self : Repodata) (used used' : Dict.t (list string))
    (item : string * Package.t) (libs : list string) (lib : string) :
  purge_index self used = Ok used' ->
  item ∈ index self -> Dict.mem (stage self) item.1 = false ->
  Package.shlib_provides item.2 = Ok libs -> lib ∈ libs ->
  lib ∉ Dict.keys used'.
Proof.
  unfold purge_index. intros Hrun Hitem Hmem Hlibs Hlib. revert Hrun.
  apply (for_each_establish (fun d => lib ∉ Dict.keys d) _ _ item); [| |done].
  - intros x d d' _. destruct (Dict.mem (stage self) x.1).
    + by intros [= <-].
    + intros (libs' & _ & [= <-])%bind_ok_inv Hd Hin.
      by apply Hd, (keys_purge_subset libs').
  - intros d d'. rewrite Hmem, Hlibs. simpl. intros [= <-].
    by apply keys_purge_gone.
Qed.

Lemma purge_index_keep (self : Repodata) (used used' : Dict.t (list string))
    (lib : string) :
  purge_index self used = Ok used' ->
  ~ still_provided self lib ->
  lib ∈ Dict.keys used -> lib ∈ Dict.keys used'.
Proof.
  unfold purge_index. intros Hrun Hnot Hin. revert Hrun.
  apply (for_each_inv (fun d => lib ∈ Dict.keys d)); [|done].
  intros item d d' Hitem Hd. destruct (Dict.mem (stage self) item.1) eqn:Hmem.
  - by intros [= <-].
  - intros (libs & Hlibs & [= <-])%bind_ok_inv.
    apply keys_purge_keep; [|done].
    intros Hlib. apply Hnot. left. by exists item, libs.
Qed.

Lemma purge_stage_keep (self : Repodata) (used used' : Dict.t (list string))
    (lib : string) :
  purge_stage self used = Ok used' ->
  ~ still_provided self lib ->
  lib ∈ Dict.keys used -> lib ∈ Dict.keys used'.
Proof.
  unfold purge_stage. intros Hrun Hnot Hin. revert Hrun.
  apply (for_each_inv (fun d => lib ∈ Dict.keys d)); [|done].
  intros item d d' Hitem Hd (libs & Hlibs & [= <-])%bind_ok_inv.
  apply keys_purge_keep; [|done].
  intros Hlib. apply Hnot. right. by exists item, libs.
Qed.

(** Every library a committed package of a staged name provides is a key
    of [old_shlibs]. *)
Lemma old_shlibs_of_complete (self : Repodata) (old_shlibs : Dict.t string)
    (lib prov : string) :
  old_shlibs_of self = Ok old_shlibs ->
  old_provider self lib prov -> lib ∈ Dict.keys old_shlibs.
Proof.
  unfold old_shlibs_of. intros Hrun (Hprov & pkg & libs & Hpkg & Hlibs & Hlib).
  revert Hrun.
  apply (for_each_establish (fun d => lib ∈ Dict.keys d) _ _ prov); [| |done].
  - intros n d d' _.
    destruct (Dict.get (index self) n) as [pkg'|]; [|by intros [= <-]].
    intros (libs' & _ & [= <-])%bind_ok_inv Hd. unfold record_old.
    apply (fold_left_inv (fun d => lib ∈ Dict.keys d)); [|done].
    intros l d0 _ Hd0. apply keys_set. by right.
  - intros d d'. rewrite Hpkg, Hlibs. simpl. intros [= <-]. unfold record_old.
    apply (fold_left_establish (fun d => lib ∈ Dict.keys d) _ libs lib); [| |done].
    + intros l d0 _ Hd0. apply keys_set. by right.
    + intros d0. apply keys_set. by left.
Qed.

Lemma record_used_recorded (self : Repodata) (old_shlibs : Dict.t string)
    (pkgname : string) (pkg : Package.t) (libs : list string)
    (used : Dict.t (list string)) :
  pkgname ∈ Dict.keys (index self) ->
  effective self pkgname = Some pkg ->
  Package.shlib_requires pkg = Ok libs ->
  recorded self old_shlibs used ->
  recorded self old_shlibs (record_used old_shlibs pkgname libs used).
Proof.
  intros Hname Heff Hlibs. unfold record_used.
  apply (fold_left_inv (recorded self old_shlibs)).
  intros shlib d Hshlib [Hdup Hd].
  destruct (Dict.mem old_shlibs shlib) eqn:Hmem; [|done].
  split; [by apply NoDup_keys_append|].
  intros lib reqs. rewrite get_append. case_decide as Hk; [|by apply Hd].
  subst lib. intros [= <-]. split; [by apply mem_true|].
  split; [by destruct (default [] (Dict.get d shlib))|].
  intros n [Hn|Hn%list_elem_of_singleton]%elem_of_app.
  - destruct (Dict.get d shlib) as [reqs|] eqn:Hget; [|by apply elem_of_nil in Hn].
    by apply (Hd shlib reqs).
  - subst n. split; [done|]. by exists pkg, libs.
Qed.

Lemma used_shlibs_of_recorded (self : Repodata) (old_shlibs : Dict.t string)
    (used : Dict.t (list string)) :
  used_shlibs_of self old_shlibs = Ok used -> recorded self old_shlibs used.
Proof.
  unfold used_shlibs_of.
  apply (for_each_inv (recorded self old_shlibs)).
  - intros pkgname d d' Hname Hd. fold (effective self pkgname).
    destruct (effective self pkgname) as [pkg|] eqn:Heff; [|by intros [= <-]].
    intros (libs & Hlibs & [= <-])%bind_ok_inv.
    by apply (record_used_recorded self old_shlibs pkgname pkg libs).
  - split; [apply NoDup_nil_2|done].
Qed.

(** A requirement on a library of [old_shlibs] is recorded, and stays. *)
Lemma used_shlibs_of_complete (self : Repodata) (old_shlibs : Dict.t string)
    (used : Dict.t (list string)) (lib n : string) :
  used_shlibs_of self old_shlibs = Ok used ->
  lib ∈ Dict.keys old_shlibs -> requires_after self lib n ->
  exists reqs, Dict.get used lib = Some reqs /\ n ∈ reqs.
Proof.
  unfold used_shlibs_of. intros Hrun Hold (Hname & pkg & libs & Heff & Hlibs & Hlib).
  assert (forall (m : string) (ls : list string) (d : Dict.t (list string)),
             (exists reqs, Dict.get d lib = Some reqs /\ n ∈ reqs) ->
             exists reqs, Dict.get (record_used old_shlibs m ls d) lib = Some reqs
                          /\ n ∈ reqs) as Hkeep.
  { intros m ls d. unfold record_used.
    apply (fold_left_inv (fun d => exists reqs, Dict.get d lib = Some reqs /\ n ∈ reqs)).
    intros l d0 _ (reqs & Hget & Hn). destruct (Dict.mem old_shlibs l); [|by exists reqs].
    rewrite get_append. case_decide as Hk; [|by exists reqs].
    subst l. rewrite Hget. eexists. split; [done|]. apply elem_of_app. by left. }
  revert Hrun.
  apply (for_each_establish
           (fun d => exists reqs, Dict.get d lib = Some reqs /\ n ∈ reqs)
           _ _ n); [| |done].
  - intros m d d' _. fold (effective self m).
    destruct (effective self m) as [pkg'|]; [|by intros [= <-]].
    intros (libs' & _ & [= <-])%bind_ok_inv. apply Hkeep.
  - intros d d'. fold (effective self n). rewrite Heff, Hlibs. simpl.
    intros [= <-]. unfold record_used.
    apply (fold_left_establish
             (fun d => exists reqs, Dict.get d lib = Some reqs /\ n ∈ reqs)
             _ libs lib); [| |done].
    + intros l d0 _. apply (Hkeep n [l]).
    + intros d0. apply mem_true in Hold. rewrite Hold, get_append.
      rewrite decide_True by done. eexists. split; [done|].
      apply elem_of_app. right. by left.
Qed.

Lemma is_ok_bind_ret {A B : Type} (m : result A) (f : A -> B) :
  is_ok (m ≫= fun a => mret (f a)) <-> is_ok m.
Proof.
  destruct m as [a|e]; simpl.
  - split; intros _; by eexists.
  - split; intros [? ?]; done.
Qed.

Lemma is_ok_Ok {A : Type} (a : A) : is_ok (Ok a) <-> True.
Proof. split; [done|]. intros _. by exists a. Qed.

Lemma old_shlibs_of_is_ok (self : Repodata) :
  is_ok (old_shlibs_of self) <->
  forall n, n ∈ Dict.keys (stage self) ->
    forall pkg, Dict.get (index self) n = Some pkg ->
      is_ok (Package.shlib_provides pkg).
Proof.
  unfold old_shlibs_of. apply for_each_is_ok. intros n d _.
  destruct (Dict.get (index self) n) as [pkg|].
  - rewrite is_ok_bind_ret. split; [by intros H ? [= <-]|auto].
  - rewrite is_ok_Ok. split; [by intros _ ? [=]|done].
Qed.

Lemma used_shlibs_of_is_ok (self : Repodata) (old_shlibs : Dict.t string) :
  is_ok (used_shlibs_of self old_shlibs) <->
  forall n, n ∈ Dict.keys (index self) ->
    forall pkg, effective self n = Some pkg ->
      is_ok (Package.shlib_requires pkg).
Proof.
  unfold used_shlibs_of. apply for_each_is_ok. intros n d _.
  fold (effective self n). destruct (effective self n) as [pkg|].
  - rewrite is_ok_bind_ret. split; [by intros H ? [= <-]|auto].
  - rewrite is_ok_Ok. split; [by intros _ ? [=]|done].
Qed.

Lemma purge_index_is_ok (self : Repodata) (used : Dict.t (list string)) :
  is_ok (purge_index self used) <->
  forall item, item ∈ index self ->
    Dict.mem (stage self) item.1 = false ->
    is_ok (Package.shlib_provides item.2).
Proof.
  unfold purge_index. apply for_each_is_ok. intros item d _.
  destruct (Dict.mem (stage self) item.1).
  - rewrite is_ok_Ok. split; [by intros _ [=]|done].
  - rewrite is_ok_bind_ret. split; auto.
Qed.

Lemma purge_stage_is_ok (self : Repodata) (used : Dict.t (list string)) :
  is_ok (purge_stage self used) <->
  forall item, item ∈ stage self -> is_ok (Package.shlib_provides item.2).
Proof.
  unfold purge_stage. rewrite (for_each_is_ok (fun item => is_ok (Package.shlib_provides item.2))); [done|].
  intros item d _. by rewrite is_ok_bind_ret.
Qed.

Lemma compute_stage_is_ok_reads (self : Repodata) :
  stage self <> [] -> is_ok (compute_stage self) <-> reads_ok self.
Proof.
  intros Hstage. unfold compute_stage.
  rewrite decide_False by by intros ?%nil_length_inv.
  rewrite (is_ok_bind _ _
             ((forall n, n ∈ Dict.keys (index self) ->
                 forall pkg, effective self n = Some pkg ->
                   is_ok (Package.shlib_requires pkg)) /\
              (forall item, item ∈ index self ->
                 Dict.mem (stage self) item.1 = false ->
                 is_ok (Package.shlib_provides item.2)) /\
              (forall item, item ∈ stage self ->
                 is_ok (Package.shlib_provides item.2)))).
  - by rewrite old_shlibs_of_is_ok.
  - intros old. rewrite is_ok_bind; [by rewrite used_shlibs_of_is_ok|].
    intros used0. rewrite is_ok_bind; [by rewrite purge_index_is_ok|].
    intros used1. rewrite is_ok_bind_ret. apply purge_stage_is_ok.
Qed.

Lemma not_is_ok_raise {A : Type} (e : exn) : ~ is_ok (Raise e : result A).
Proof. by intros [? ?]. Qed.

(** X8: [compute_stage] returns a result when the stage is empty, and
    when every library list it reads is set and holds strings: the
    provides of the committed package of each staged name, the requires
    of the effective version of each committed name, the provides of each
    committed package that is not staged, and the provides of each staged
    package.  On a stage that is not empty it raises when one of these
    lists was never set. *)
Theorem compute_stage_returns_or_raises (self : Repodata) :
  (stage self = [] \/ reads_ok self -> is_ok (compute_stage self)) /\
  (stage self <> [] -> reads_unset self -> exists e, compute_stage self = Raise e).
Proof.
  split.
  - intros [Hnil|Hreads].
    + unfold compute_stage. rewrite Hnil. simpl. by exists [].
    + destruct (stage self) as [|item rest] eqn:Hstage.
      * unfold compute_stage. rewrite Hstage. simpl. by exists [].
      * apply compute_stage_is_ok_reads; [by rewrite Hstage|done].
  - intros Hstage Hunset.
    destruct (compute_stage self) as [res|e] eqn:Hres; [|by exists e].
    exfalso.
    assert (reads_ok self) as (Hold & Hused & Hpi & Hps).
    { apply compute_stage_is_ok_reads; [done|]. rewrite Hres. by exists res. }
    destruct Hunset as [(n & pkg & Hn & Hpkg & Hraise)
                       |[(n & pkg & Hn & Hpkg & Hraise)
                        |[(item & Hitem & Hmem & Hraise)
                         |(item & Hitem & Hraise)]]].
    + apply (not_is_ok_raise (A := list string) AttributeError).
      rewrite <- Hraise. by apply (Hold n).
    + apply (not_is_ok_raise (A := list string) AttributeError).
      rewrite <- Hraise. by apply (Hused n).
    + apply (not_is_ok_raise (A := list string) AttributeError).
      rewrite <- Hraise. by apply Hpi.
    + apply (not_is_ok_raise (A := list string) AttributeError).
      rewrite <- Hraise. by apply Hps.
Qed.

Lemma compute_stage_returns_or_raises_witness :
  is_ok (compute_stage Scenario.kept) /\
  exists e, compute_stage Scenario.dropped_as_worded = Raise e.
Proof.
  split.
  - apply (proj1 (compute_stage_returns_or_raises Scenario.kept)). right.
    assert (forall item : string * Package.t,
               item ∈ [("A", Scenario.A); ("B", Scenario.B); ("A", Scenario.A_kept)] ->
               is_ok (Package.shlib_provides item.2) /\
               is_ok (Package.shlib_requires item.2)) as Hall.
    { intros item Hitem. repeat (apply elem_of_cons in Hitem as [->|Hitem]);
        [| | |by apply elem_of_nil in Hitem]; split; eexists; reflexivity. }
    split; [|split; [|split]].
    + intros n Hn pkg Hpkg. apply get_elem_of in Hpkg.
      apply (Hall (n, pkg)). apply elem_of_cons in Hpkg as [->|Hpkg]; [by left|].
      right. apply elem_of_cons in Hpkg as [->|Hpkg]; [by left|].
      by apply elem_of_nil in Hpkg.
    + intros n Hn pkg Hpkg. unfold effective in Hpkg.
      destruct (Dict.get (stage Scenario.kept) n) as [staged|] eqn:Hstaged.
      * injection Hpkg as <-. apply get_elem_of in Hstaged.
        apply (Hall (n, staged)).
        apply elem_of_cons in Hstaged as [->|Hstaged]; [|by apply elem_of_nil in Hstaged].
        right. right. by left.
      * apply get_elem_of in Hpkg. apply (Hall (n, pkg)).
        apply elem_of_cons in Hpkg as [->|Hpkg]; [by left|].
        right. apply elem_of_cons in Hpkg as [->|Hpkg]; [by left|].
        by apply elem_of_nil in Hpkg.
    + intros item Hitem _. apply (Hall item).
      apply elem_of_cons in Hitem as [->|Hitem]; [by left|].
      right. apply elem_of_cons in Hitem as [->|Hitem]; [by left|].
      by apply elem_of_nil in Hitem.
    + intros item Hitem. apply (Hall item).
      apply elem_of_cons in Hitem as [->|Hitem]; [|by apply elem_of_nil in Hitem].
      right. right. by left.
  - apply (proj2 (compute_stage_returns_or_raises Scenario.dropped_as_worded)).
    + discriminate.
    + right. left. exists "A", Scenario.A_bare.
      split; [by left|]. split; reflexivity.
Defined.

Lemma collect_shlibs (old_shlibs : Dict.t string) (used : Dict.t (list string)) :
  shlib <$> collect old_shlibs used = Dict.keys used.
Proof.
  unfold collect, Dict.keys. induction used as [|item rest IH]; simpl; [done|].
  f_equal. apply IH.
Qed.

(** The dictionary behind a result on a stage that is not empty. *)
Lemma compute_stage_used (self : Repodata) (res : list StageDiff) :
  compute_stage self = Ok res ->
  (stage self = [] /\ res = []) \/
  exists old_shlibs used0 used,
    old_shlibs_of self = Ok old_shlibs /\
    used_shlibs_of self old_shlibs = Ok used0 /\
    recorded self old_shlibs used0 /\
    kept_from used0 used /\
    (forall lib, lib ∈ Dict.keys used ->
                 lib ∈ Dict.keys used0 /\ ~ still_provided self lib) /\
    (forall lib, lib ∈ Dict.keys used0 -> ~ still_provided self lib ->
                 lib ∈ Dict.keys used) /\
    res = collect old_shlibs used.
Proof.
  intros [?|(old & used0 & used1 & used2 & Hold & Hused0 & Hused1 & Hused2 & ->)]%compute_stage_inv;
    [by left|right].
  exists old, used0, used2.
  pose proof (used_shlibs_of_recorded _ _ _ Hused0) as Hrec.
  pose proof (purge_index_kept _ _ _ Hused1) as [Hdup1 Hget1].
  pose proof (purge_stage_kept _ _ _ Hused2) as [Hdup2 Hget2].
  split; [done|]. split; [done|]. split; [done|].
  split; [split; auto|]. split; [|split; [|done]].
  - intros lib Hlib. split.
    + by apply (purge_index_keys _ _ _ Hused1), (purge_items_keys _ _ _ Hused2).
    + intros [(item & libs & Hitem & Hmem & Hlibs & Hin)|(item & libs & Hitem & Hlibs & Hin)].
      * apply (purge_items_keys _ _ _ Hused2) in Hlib.
        by apply (purge_index_gone self used0 used1 item libs lib).
      * by apply (purge_items_gone _ _ _ Hused2 item libs lib).
  - intros lib Hlib Hnot.
    apply (purge_stage_keep self used1 used2); [done|done|].
    by apply (purge_index_keep self used0 used1).
Qed.

(** X9: no library is reported twice: the [shlib] fields of a result are
    pairwise distinct. *)
Theorem compute_stage_shlibs_distinct (self : Repodata) (res : list StageDiff) :
  compute_stage self = Ok res -> NoDup (shlib <$> res).
Proof.
  intros [[_ ->]|(old & used0 & used & _ & _ & [Hdup _] & [Hkept _] & _ & _ & ->)]%compute_stage_used.
  - apply NoDup_nil_2.
  - rewrite collect_shlibs. by apply Hkept.
Qed.

Lemma compute_stage_shlibs_distinct_witness :
  NoDup (shlib <$> [{| shlib := "libfoo.so.1"; provider := Some "A";
                       required_by := ["B"] |};
                    {| shlib := "libbar.so.2"; provider := Some "A";
                       required_by := ["C"] |}]).
Proof.
  apply (compute_stage_shlibs_distinct Scenario.two_reports). reflexivity.
Defined.

(** X10: in a result, [required_by] is never empty and holds exactly the
    committed package names whose effective version (the staged package
    when the name is staged, the committed one otherwise) requires the
    library. *)
Theorem compute_stage_required_by (self : Repodata) (res : list StageDiff)
    (d : StageDiff) :
  compute_stage self = Ok res -> d ∈ res ->
  required_by d <> [] /\
  forall n, n ∈ required_by d <-> requires_after self (shlib d) n.
Proof.
  intros [[_ ->]|(old & used0 & used & _ & Hused0 & [Hdup Hrec] & [Hkept Hget] & _ & _ & ->)]%compute_stage_used Hd.
  - by apply elem_of_nil in Hd.
  - unfold collect in Hd. apply list_elem_of_fmap in Hd as ([lib reqs] & -> & Hitem).
    simpl. apply elem_of_get in Hitem; [|by apply Hkept].
    apply Hget in Hitem. destruct (Hrec lib reqs Hitem) as (Hold & Hne & Hsound).
    split; [done|]. intros n. split; [apply Hsound|].
    intros Hreq.
    destruct (used_shlibs_of_complete self old used0 lib n Hused0 Hold Hreq)
      as (reqs' & Hget' & Hn).
    rewrite Hitem in Hget'. by injection Hget' as <-.
Qed.

Lemma compute_stage_required_by_witness :
  ["B"] <> [] /\
  forall n, n ∈ ["B"] <-> requires_after Scenario.dropped "libfoo.so.1" n.
Proof.
  apply (compute_stage_required_by Scenario.dropped
           [{| shlib := "libfoo.so.1"; provider := Some "A"; required_by := ["B"] |}]
           {| shlib := "libfoo.so.1"; provider := Some "A"; required_by := ["B"] |}).
  - reflexivity.
  - by left.
Defined.

(** X11: a library is reported exactly when the committed package of
    some staged name provides it, the effective version of some
    committed name requires it, and no package that stays (a committed
    package that is not staged, or a staged package) provides it. *)
Theorem compute_stage_reports_iff (self : Repodata) (res : list StageDiff)
    (lib : string) :
  compute_stage self = Ok res ->
  lib ∈ shlib <$> res <->
    (exists prov, old_provider self lib prov) /\
    (exists n, requires_after self lib n) /\
    ~ still_provided self lib.
Proof.
  intros [[Hstage ->]|(old & used0 & used & Hold & Hused0 & [Hdup Hrec] & _ & Hsub & Hkeep & ->)]%compute_stage_used.
  - split; [by intros ?%elem_of_nil|].
    intros [[prov [Hprov _]] _]. rewrite Hstage in Hprov.
    by apply elem_of_nil in Hprov.
  - rewrite collect_shlibs. split.
    + intros [Hused Hnot]%Hsub.
      apply get_is_some in Hused as [reqs Hget].
      destruct (Hrec lib reqs Hget) as (Hlib & Hne & Hsound).
      split; [|split; [|done]].
      * apply get_is_some in Hlib as [prov Hprov]. exists prov.
        by apply (old_shlibs_of_sound self old).
      * destruct reqs as [|n reqs]; [done|]. exists n. apply Hsound. by left.
    + intros ([prov Hprov] & [n Hreq] & Hnot).
      apply Hkeep; [|done].
      pose proof (old_shlibs_of_complete self old lib prov Hold Hprov) as Hlib.
      destruct (used_shlibs_of_complete self old used0 lib n Hused0 Hlib Hreq)
        as (reqs & Hget & _).
      apply get_is_some. by exists reqs.
Qed.

Lemma compute_stage_reports_iff_witness :
  "libfoo.so.1" ∈ shlib <$> [{| shlib := "libfoo.so.1"; provider := Some "A";
                                required_by := ["B"] |}] <->
    (exists prov, old_provider Scenario.dropped "libfoo.so.1" prov) /\
    (exists n, requires_after Scenario.dropped "libfoo.so.1" n) /\
    ~ still_provided Scenario.dropped "libfoo.so.1".
Proof.
  apply (compute_stage_reports_iff Scenario.dropped). reflexivity.
Defined.

(** ** More on loading *)

Lemma set_fresh {V : Type} (d : Dict.t V) (k : string) (v : V) :
  k ∉ Dict.keys d -> Dict.set d k v = d ++ [(k, v)].
Proof.
  unfold Dict.keys. induction d as [|[k0 v0] rest IH]; simpl; [done|].
  rewrite not_elem_of_cons. intros [Hne Hrest].
  rewrite decide_False by done. by rewrite IH.
Qed.

Lemma get_app {V : Type} (d1 d2 : Dict.t V) (k : string) :
  Dict.get (d1 ++ d2) k
  = match Dict.get d1 k with Some v => Some v | None => Dict.get d2 k end.
Proof.
  induction d1 as [|[k0 v0] rest IH]; simpl; [done|]. by case_decide.
Qed.

Lemma fill_index_all (items : Dict.t (Dict.t value)) (idx : RepoIndex) :
  NoDup (Dict.keys idx ++ Dict.keys items) ->
  Forall (fun item => "self" ∉ Dict.keys item.2) items ->
  fill_index items idx
  = (idx ++ map (fun item => (item.1, Package.__init__ item.2)) items, None).
Proof.
  revert idx. induction items as [|[name kwargs] rest IH]; intros idx Hdup Hself; simpl.
  - by rewrite app_nil_r.
  - apply Forall_cons in Hself as [Hkw Hrest]. simpl in Hkw.
    unfold Package.new. rewrite decide_False by done.
    unfold Dict.keys in Hdup. simpl in Hdup.
    apply NoDup_app in Hdup as (Hidx & Hdisj & [Hname Hnames]%NoDup_cons).
    rewrite set_fresh.
    2: { intros Hin. apply (Hdisj name Hin). by left. }
    rewrite IH; [by rewrite <- app_assoc|..|done].
    unfold Dict.keys. rewrite fmap_app. simpl.
    apply NoDup_app. split; [|split; [|done]].
    + apply NoDup_app. split; [done|]. split; [|apply NoDup_singleton].
      intros x Hx Hx'%list_elem_of_singleton. subst x.
      apply (Hdisj name Hx). by left.
    + intros x [Hx|Hx%list_elem_of_singleton]%elem_of_app Hin.
      * apply (Hdisj x Hx). by right.
      * by subst x.
Qed.

Lemma fill_index_self (items : Dict.t (Dict.t value)) (idx : RepoIndex) :
  Exists (fun item => "self" ∈ Dict.keys item.2) items ->
  (fill_index items idx).2 = Some TypeError.
Proof.
  revert idx. induction items as [|[name kwargs] rest IH]; intros idx Hself; simpl.
  - by apply Exists_nil in Hself.
  - unfold Package.new. case_decide as Hkw; [done|].
    apply Exists_cons in Hself as [Hhere|Hlater]; [done|]. by apply IH.
Qed.

(** X12: when the decoder returns a mapping none of whose packages has
    the key [self], [_read_index] returns one entry for each name, in
    the order of the mapping, holding the package constructed from the
    attributes of that name. *)
Theorem read_index_builds_every_package
    (plist_load : bytes -> result (Dict.t (Dict.t value)))
    (f : bytes) (items : Dict.t (Dict.t value)) :
  plist_load f = Ok items ->
  NoDup (Dict.keys items) ->
  Forall (fun item => "self" ∉ Dict.keys item.2) items ->
  _read_index plist_load f
  = Ok (map (fun item => (item.1, Package.__init__ item.2)) items).
Proof.
  intros Hload Hdup Hself. unfold _read_index. rewrite Hload.
  by rewrite fill_index_all.
Qed.

Lemma read_index_builds_every_package_witness :
  _read_index
    (fun _ => Ok [("A", [("pkgver", VStr "A-1.0_1")]);
                  ("B", [("pkgver", VStr "B-1.0_1")])]) []
  = Ok (map (fun item => (item.1, Package.__init__ item.2))
          [("A", [("pkgver", VStr "A-1.0_1")]);
           ("B", [("pkgver", VStr "B-1.0_1")])]).
Proof.
  apply (read_index_builds_every_package
           (fun _ => Ok [("A", [("pkgver", VStr "A-1.0_1")]);
                         ("B", [("pkgver", VStr "B-1.0_1")])]) []
           [("A", [("pkgver", VStr "A-1.0_1")]); ("B", [("pkgver", VStr "B-1.0_1")])]).
  - reflexivity.
  - apply NoDup_cons. split; [|apply NoDup_singleton].
    by intros [=]%list_elem_of_singleton.
  - repeat constructor; by intros [=]%list_elem_of_singleton.
Defined.

(** X13: a package whose attributes hold the key [self] makes
    [_read_index] raise [TypeError]: only [ExpatError] is absorbed. *)
Theorem read_index_self_key_raises
    (plist_load : bytes -> result (Dict.t (Dict.t value)))
    (f : bytes) (items : Dict.t (Dict.t value)) :
  plist_load f = Ok items ->
  Exists (fun item => "self" ∈ Dict.keys item.2) items ->
  _read_index plist_load f = Raise TypeError.
Proof.
  intros Hload Hself. unfold _read_index. rewrite Hload.
  by rewrite fill_index_self.
Qed.

Lemma read_index_self_key_raises_witness :
  _read_index
    (fun _ => Ok [("A", [("pkgver", VStr "A-1.0_1")]);
                  ("B", [("self", VStr "B")])]) []
  = Raise TypeError.
Proof.
  apply (read_index_self_key_raises
           (fun _ => Ok [("A", [("pkgver", VStr "A-1.0_1")]);
                         ("B", [("self", VStr "B")])]) []
           [("A", [("pkgver", VStr "A-1.0_1")]); ("B", [("self", VStr "B")])]).
  - reflexivity.
  - apply Exists_cons_tl, Exists_cons_hd. by left.
Defined.

Section MoreLoading.

Variable plist_load : bytes -> result (Dict.t (Dict.t value)).
Variable open_archive : RepodataFile -> result TarFile.
Variable urlopen_read : string -> result bytes.

Lemma read_repodata_meta (rdf : RepodataFile)
    (r : RepoIndex * RepoIndex * option RepoMeta) :
  _read_repodata plist_load open_archive rdf = Ok r -> r.2 = None.
Proof.
  unfold _read_repodata.
  intros (tar & _ & H)%bind_ok_inv.
  apply bind_ok_inv in H as (fi & _ & H).
  apply bind_ok_inv in H as (idx & _ & H).
  apply bind_ok_inv in H as (fs & _ & H).
  apply bind_ok_inv in H as (stg & _ & [= <-]). done.
Qed.

Lemma from_local_meta (path : Path) (rd : Repodata) :
  from_local plist_load open_archive path = Ok rd -> meta rd = None.
Proof.
  unfold from_local. intros (r & Hr & [= <-])%bind_ok_inv. simpl.
  by apply (read_repodata_meta (OnPath path)).
Qed.

Lemma from_remote_meta (url : string) (rd : Repodata) :
  from_remote plist_load open_archive urlopen_read url = Ok rd -> meta rd = None.
Proof.
  unfold from_remote. intros (body & _ & H)%bind_ok_inv.
  apply bind_ok_inv in H as (r & Hr & [= <-]). simpl.
  by apply (read_repodata_meta (OnBuffer body)).
Qed.

End MoreLoading.

(** X14: no loader fills in the signing metadata: whatever
    [from_repodata] returns has no [meta]. *)
Theorem from_repodata_meta_absent
    (plist_load : bytes -> result (Dict.t (Dict.t value)))
    (open_archive : RepodataFile -> result TarFile)
    (urlopen_read : string -> result bytes)
    (url : PathOrStr) (rd : Repodata) :
  from_repodata plist_load open_archive urlopen_read url = Ok rd ->
  meta rd = None.
Proof.
  unfold from_repodata. destruct url as [p|s].
  - apply from_local_meta.
  - destruct (existsb _ _); [apply from_remote_meta|apply from_local_meta].
Qed.

Lemma from_repodata_meta_absent_witness :
  meta {| index := []; stage := []; meta := None |} = None.
Proof.
  apply (from_repodata_meta_absent sample_plist_load sample_open_archive
           sample_urlopen_read (IsStr "/var/db/xbps/x86_64-repodata")).
  reflexivity.
Defined.

Lemma bind_ok {A B : Type} (a : A) (f : A -> result B) : Ok a ≫= f = f a.
Proof. reflexivity. Qed.

Lemma extract_index_absent (tar : TarFile) (fname : string) :
  fname ∉ Dict.keys tar ->
  _extract_index tar fname = Raise (FileNotFoundError fname).
Proof.
  intros Habsent. unfold _extract_index. by rewrite extractfile_absent.
Qed.

(** X15: loading raises [FileNotFoundError] with the member name when
    the archive has no [index.plist]; and, once [index.plist] is
    decoded, when it has no [stage.plist]. *)
Theorem read_repodata_missing_member
    (plist_load : bytes -> result (Dict.t (Dict.t value)))
    (open_archive : RepodataFile -> result TarFile)
    (rdf : RepodataFile) (tar : TarFile) :
  open_archive rdf = Ok tar ->
  ("index.plist" ∉ Dict.keys tar ->
     _read_repodata plist_load open_archive rdf
     = Raise (FileNotFoundError "index.plist")) /\
  (forall f idx,
     _extract_index tar "index.plist" = Ok f ->
     _read_index plist_load f = Ok idx ->
     "stage.plist" ∉ Dict.keys tar ->
     _read_repodata plist_load open_archive rdf
     = Raise (FileNotFoundError "stage.plist")).
Proof.
  intros Hopen. unfold _read_repodata. rewrite Hopen. split.
  - intros Habsent. rewrite bind_ok.
    by rewrite (extract_index_absent tar "index.plist").
  - intros f idx Hf Hidx Habsent.
    rewrite bind_ok, Hf, bind_ok, Hidx, bind_ok.
    by rewrite (extract_index_absent tar "stage.plist").
Qed.

Lemma read_repodata_missing_member_witness :
  _read_repodata sample_plist_load sample_open_archive (OnBuffer [])
  = Raise (FileNotFoundError "stage.plist").
Proof.
  apply (proj2 (read_repodata_missing_member sample_plist_load sample_open_archive
                  (OnBuffer []) [("index.plist", RegularFile [Byte.x3c])] eq_refl)
           [Byte.x3c] []).
  - reflexivity.
  - reflexivity.
  - by intros [=]%list_elem_of_singleton.
Defined.

(** X16: a repository whose [stage.plist] the decoder rejects with
    [ExpatError] still loads, with an empty stage, and the stage check on
    it returns the empty list. *)
Theorem from_local_rejected_stage
    (plist_load : bytes -> result (Dict.t (Dict.t value)))
    (open_archive : RepodataFile -> result TarFile)
    (path : Path) (tar : TarFile) (index_plist stage_plist : bytes)
    (idx : RepoIndex) :
  open_archive (OnPath path) = Ok tar ->
  _extract_index tar "index.plist" = Ok index_plist ->
  _read_index plist_load index_plist = Ok idx ->
  _extract_index tar "stage.plist" = Ok stage_plist ->
  plist_load stage_plist = Raise ExpatError ->
  from_local plist_load open_archive path
    = Ok {| index := idx; stage := []; meta := None |} /\
  (rd ← from_local plist_load open_archive path; compute_stage rd) = Ok [].
Proof.
  intros Hopen Hfi Hidx Hfs Hstage.
  assert (from_local plist_load open_archive path
          = Ok {| index := idx; stage := []; meta := None |}) as Hload.
  { unfold from_local, _read_repodata. rewrite Hopen. simpl.
    rewrite Hfi. simpl. rewrite Hidx. simpl. rewrite Hfs. simpl.
    unfold _read_index at 1. by rewrite Hstage. }
  split; [done|]. by rewrite Hload.
Qed.

Lemma from_local_rejected_stage_witness :
  from_local sample_plist_load sample_open_archive (MkPath "x86_64-repodata")
    = Ok {| index := []; stage := []; meta := None |} /\
  (rd ← from_local sample_plist_load sample_open_archive (MkPath "x86_64-repodata");
   compute_stage rd) = Ok [].
Proof.
  apply (from_local_rejected_stage sample_plist_load sample_open_archive
           (MkPath "x86_64-repodata")
           [("index.plist", RegularFile [Byte.x3c]); ("stage.plist", RegularFile [])]
           [Byte.x3c] [] []); reflexivity.
Defined.

(** X17: among the members of one name the last decides: when it is a
    regular file [_extract_index] returns its content, and when it is no
    file [_extract_index] raises [FileNotFoundError]. *)
Theorem extract_index_last_member (before after : TarFile) (fname : string)
    (member : TarMember) :
  fname ∉ Dict.keys after ->
  _extract_index (before ++ (fname, member) :: after) fname
  = match member with
    | RegularFile content => Ok content
    | Directory => Raise (FileNotFoundError "not a file")
    end.
Proof.
  intros Hafter. unfold _extract_index, extractfile.
  assert (Dict.get (rev (before ++ (fname, member) :: after)) fname = Some member)
    as ->; [|by destruct member].
  rewrite rev_app_distr. simpl. rewrite <- app_assoc, get_app.
  assert (Dict.get (rev after) fname = None) as ->.
  { apply get_none. unfold Dict.keys in *.
    intros (item & -> & Hitem)%list_elem_of_fmap. apply Hafter.
    apply list_elem_of_fmap_2, list_elem_of_In, in_rev.
    by apply list_elem_of_In. }
  simpl. by rewrite decide_True.
Qed.

Lemma extract_index_last_member_witness :
  _extract_index
    ([("index.plist", Directory)]
     ++ ("index.plist", RegularFile [Byte.x3c]) :: [("stage.plist", RegularFile [])])
    "index.plist"
  = Ok [Byte.x3c].
Proof.
  apply (extract_index_last_member [("index.plist", Directory)]
           [("stage.plist", RegularFile [])] "index.plist"
           (RegularFile [Byte.x3c])).
  by intros [=]%list_elem_of_singleton.
Defined.
